(** * Recorded GPU allocation: accounting against a soft memory limit

    A shallow embedding of [paddle/fluid/platform/device/gpu/gpu_info.cc]:
    the sizing policy ([GpuAllocSize]), the error normalisation
    ([RaiseNonOutOfMemoryError]), the per-device helper class
    [RecordedGpuMallocHelper] and the registry lookup ([Instance]).

    - Sizes, counters and addresses are integers in [Z]; every [uint64_t]
      operation of the code is written with its wrap-around ([Word64]).
    - The native primitives ([cudaMalloc], [cudaFree], [cudaMemGetInfo],
      [cuMemCreate], ...) are not part of the program: each member function
      takes the answer of the primitive it may call as an argument, and the
      calls made are logged in the environment.
    - The code is sequentialised: [std::atomic<uint64_t>] operations become
      plain reads and writes of the counter, and the mutex of [GetMemInfo]
      is only recorded as present or absent.
    - Logging ([VLOG]), profiler events ([RecordMemEvent]) and the usage
      report of the destructor are left out. *)

From Stdlib Require Import ZArith List Bool Lia SpecFloat.
From stdpp Require Import base option list gmap.
Import ListNotations.
Open Scope Z_scope.

(** ** 64-bit unsigned arithmetic ([size_t], [uint64_t]) *)

Module Word64.

Definition modulus : Z := 2 ^ 64.

Definition wrap (z : Z) : Z := z mod modulus.

Definition add (a b : Z) : Z := wrap (a + b).
Definition sub (a b : Z) : Z := wrap (a - b).
Definition neg (a : Z) : Z := wrap (- a).
Definition shl (a n : Z) : Z := wrap (Z.shiftl a n).

(** A value of the type: [0 <= z < 2^64]. *)
Definition in_range (z : Z) : bool := (0 <=? z) && (z <? modulus).

(** Reinterpretation of a 64-bit pattern as [int64_t]. *)
Definition to_int64 (z : Z) : Z :=
  if z <? 2 ^ 63 then z else z - modulus.

End Word64.

(** ** Driver status codes and framework errors *)

(** [gpuError_t]: [cudaError_t] or [hipError_t].  [gpuErrorUnloading] is
    [cudaErrorCudartUnloading] on CUDA and [hipErrorDeinitialized] on HIP;
    every other code is kept with its number. *)
Inductive gpuError_t : Type :=
| gpuSuccess
| gpuErrorOutOfMemory
| gpuErrorUnloading
| gpuErrorOther (code : Z).

(** [CUresult] of the driver API ([cuMemCreate], [cuMemRelease]). *)
Inductive CUresult : Type :=
| CUDA_SUCCESS
| CUDA_ERROR (code : Z).

(** What [PADDLE_ENFORCE_*] and [PADDLE_THROW] raise.  [External] carries the
    driver code checked by [PADDLE_ENFORCE_GPU_SUCCESS].  [UndefinedConversion]
    marks a [double] to [size_t] conversion whose value does not fit, which
    C++ leaves undefined. *)
Inductive error : Type :=
| External (status : gpuError_t)
| OutOfRange
| ResourceExhausted
| Unimplemented
| UndefinedConversion.

Inductive result (A : Type) : Type :=
| Ok (a : A)
| Throw (e : error).
Arguments Ok {A} a.
Arguments Throw {A} e.

(** ** State and exception monad

    A computation reads and writes a state of type [S]; a raised error
    keeps the state reached when it was raised. *)

Definition M (S A : Type) : Type := S -> result A * S.

Definition ret {S A} (a : A) : M S A := fun s => (Ok a, s).

Definition bind {S A B} (m : M S A) (k : A -> M S B) : M S B :=
  fun s => match m s with
           | (Ok a, s') => k a s'
           | (Throw e, s') => (Throw e, s')
           end.

Definition throw {S A} (e : error) : M S A := fun s => (Throw e, s).

Definition get {S} : M S S := fun s => (Ok s, s).

Definition modify {S} (f : S -> S) : M S unit := fun s => (Ok tt, f s).

(** Runs [m], then [fin] on both the normal and the exceptional exit (a C++
    destructor at scope exit). *)
Definition finally {S A} (m : M S A) (fin : S -> S) : M S A :=
  fun s => match m s with
           | (r, s') => (r, fin s')
           end.

Declare Scope monad_scope.
Delimit Scope monad_scope with monad.
Notation "'let*' x ':=' m 'in' k" := (bind m (fun x => k))
  (at level 10, x name, m at level 100, k at level 200) : monad_scope.
Open Scope monad_scope.

(** ** The driver and the statistics registry *)

(** The native calls this file issues, in the order issued. *)
Inductive native_call : Type :=
| cudaSetDevice (id : Z)
| cudaMalloc (size : Z)
| cudaMallocManaged (size : Z)
| cudaFree (ptr : Z)
| cudaMemGetInfo
| cudaGetLastError
| cuMemCreate (size : Z)
| cuMemRelease (handle : Z).

(** [Stat]: the current and the peak value of one memory statistic. *)
Record Stat : Type := mkStat {
  current_value : Z;
  peak_value : Z
}.

Definition Stat_zero : Stat := mkStat 0 0.

(** The part of the process outside the helper objects.
    - [last_error]: the runtime's error flag, which [cudaGetLastError]
      returns and resets;
    - [current_device]: the ambient device of the calling thread;
    - [device_count]: what [GetGPUDeviceCount] answers;
    - [calls]: the native calls made so far, latest first;
    - [reserved]: the [Reserved] statistic of each device. *)
Record Env : Type := mkEnv {
  last_error : gpuError_t;
  current_device : Z;
  device_count : Z;
  calls : list native_call;
  reserved : gmap Z Stat
}.

Definition set_last_error (e : gpuError_t) (v : Env) : Env :=
  mkEnv e (current_device v) (device_count v) (calls v) (reserved v).

Definition set_current_device (d : Z) (v : Env) : Env :=
  mkEnv (last_error v) d (device_count v) (calls v) (reserved v).

Definition log_call (c : native_call) (v : Env) : Env :=
  mkEnv (last_error v) (current_device v) (device_count v) (c :: calls v)
        (reserved v).

Definition set_reserved (r : gmap Z Stat) (v : Env) : Env :=
  mkEnv (last_error v) (current_device v) (device_count v) (calls v) r.

(** A runtime call that answers [status]: the call is logged, and a failure
    becomes the runtime's last error, which stays until [cudaGetLastError]
    reads it. *)
Definition runtime_call (c : native_call) (status : gpuError_t) (v : Env) : Env :=
  let v' := log_call c v in
  match status with
  | gpuSuccess => v'
  | _ => set_last_error status v'
  end.

(** Modelled from the spec: [Stat::Update] behind
    [DEVICE_MEMORY_STAT_UPDATE(Reserved, dev_id, increment)], the reserved
    memory gauge; the increment is an [int64_t]. *)
Definition Stat_Update (increment : Z) (s : Stat) : Stat :=
  let cur := current_value s + increment in
  mkStat cur (Z.max (peak_value s) cur).

Definition DEVICE_MEMORY_STAT_UPDATE_Reserved (dev_id increment : Z) (v : Env) : Env :=
  let s := default Stat_zero (reserved v !! dev_id) in
  set_reserved (<[dev_id := Stat_Update increment s]> (reserved v)) v.

Definition DEVICE_MEMORY_STAT_CURRENT_VALUE_Reserved (dev_id : Z) (v : Env) : Z :=
  current_value (default Stat_zero (reserved v !! dev_id)).

(** ** [double] arithmetic (IEEE 754 binary64, round to nearest even) *)

Module Double.

Definition prec : Z := 53.
Definition emax : Z := 1024.

(** Conversion of a [size_t] to [double]. *)
Definition of_size_t (z : Z) : spec_float :=
  binary_normalize prec emax z 0 false.

Definition mul (x y : spec_float) : spec_float := SFmul prec emax x y.

(** Conversion of a [double] to [size_t]: the fractional part is dropped;
    [None] where the truncated value is not a [size_t] value. *)
Definition to_size_t (f : spec_float) : option Z :=
  match f with
  | S754_zero _ => Some 0
  | S754_finite s m e =>
      let t := if 0 <=? e then Zpos m * 2 ^ e else Zpos m / 2 ^ (- e) in
      if s then (if t =? 0 then Some 0 else None)
      else if t <? Word64.modulus then Some t else None
  | S754_infinity _ | S754_nan => None
  end.

End Double.

(** ** [std::set<void *>] as its in-order sequence

    Iterators are positions in the sequence: [begin] is position 0 and [end]
    is the length. *)

Module PtrSet.

Definition t : Type := list Z.

Definition empty : t := [].

Fixpoint insert (x : Z) (s : t) : t :=
  match s with
  | [] => [x]
  | y :: s' =>
      if x <? y then x :: s
      else if x =? y then s
      else y :: insert x s'
  end.

Fixpoint erase (x : Z) (s : t) : t :=
  match s with
  | [] => []
  | y :: s' => if x =? y then s' else y :: erase x s'
  end.

(** Position of the first element greater than [x]. *)
Fixpoint upper_bound (x : Z) (s : t) : nat :=
  match s with
  | [] => 0%nat
  | y :: s' => if x <? y then 0%nat else S (upper_bound x s')
  end.

Definition begin (s : t) : nat := 0%nat.

Definition deref (it : nat) (s : t) : Z := nth it s 0.

(** The representation invariant: strictly increasing. *)
Fixpoint sorted (s : t) : Prop :=
  match s with
  | [] => True
  | x :: s' => Forall (fun y => x < y) s' /\ sorted s'
  end.

End PtrSet.

Definition nullptr : Z := 0.

(** ** [class RecordedGpuMallocHelper] *)

Record RecordedGpuMallocHelper : Type := mkHelper {
  dev_id_ : Z;
  limit_size_ : Z;
  cur_size_ : Z;
  mtx_ : bool;              (* whether the mutex was created *)
  gpu_ptrs : PtrSet.t       (* just for testing *)
}.

(** The state a member function runs in: the object and the process
    environment. *)
Record St : Type := mkSt {
  this : RecordedGpuMallocHelper;
  env : Env
}.

Definition on_env (f : Env -> Env) : M St unit :=
  modify (fun s => mkSt (this s) (f (env s))).

Definition on_this (f : RecordedGpuMallocHelper -> RecordedGpuMallocHelper) : M St unit :=
  modify (fun s => mkSt (f (this s)) (env s)).

Definition set_cur_size (c : Z) (h : RecordedGpuMallocHelper) : RecordedGpuMallocHelper :=
  mkHelper (dev_id_ h) (limit_size_ h) c (mtx_ h) (gpu_ptrs h).

Definition set_gpu_ptrs (p : PtrSet.t) (h : RecordedGpuMallocHelper) : RecordedGpuMallocHelper :=
  mkHelper (dev_id_ h) (limit_size_ h) (cur_size_ h) (mtx_ h) p.

(** [cur_size_.fetch_add(size)] and [cur_size_.fetch_sub(size)]. *)
Definition fetch_add (size : Z) : M St unit :=
  on_this (fun h => set_cur_size (Word64.add (cur_size_ h) size) h).

Definition fetch_sub (size : Z) : M St unit :=
  on_this (fun h => set_cur_size (Word64.sub (cur_size_ h) size) h).

(** A call into the runtime whose answer is [status]. *)
Definition native (c : native_call) (status : gpuError_t) : M St gpuError_t :=
  let* _ := on_env (runtime_call c status) in
  ret status.

(** A call into the driver API; it does not touch the runtime's error flag. *)
Definition native_driver (c : native_call) (status : CUresult) : M St CUresult :=
  let* _ := on_env (log_call c) in
  ret status.

(** [platform::GpuGetLastError()]: returns the error flag and resets it. *)
Definition GpuGetLastError : M St gpuError_t :=
  let* s := get in
  let* _ := on_env (fun v => set_last_error gpuSuccess (log_call cudaGetLastError v)) in
  ret (last_error (env s)).

Definition PADDLE_ENFORCE_GPU_SUCCESS (status : gpuError_t) : M St unit :=
  match status with
  | gpuSuccess => ret tt
  | _ => throw (External status)
  end.

Definition RaiseNonOutOfMemoryError (status : gpuError_t) : M St gpuError_t :=
  let status := match status with
                | gpuErrorOutOfMemory => gpuSuccess
                | _ => status
                end in
  let* _ := PADDLE_ENFORCE_GPU_SUCCESS status in
  let* status := GpuGetLastError in
  let status := match status with
                | gpuErrorOutOfMemory => gpuSuccess
                | _ => status
                end in
  let* _ := PADDLE_ENFORCE_GPU_SUCCESS status in
  ret status.

Definition SetDeviceId (id : Z) (v : Env) : Env :=
  set_current_device id (log_call (cudaSetDevice id) v).

(** Modelled from the spec: [CUDADeviceGuard guard(dev_id)], which scopes the
    current-device context to [dev_id] and restores the caller's ambient
    device on every exit of the scope. *)
Definition CUDADeviceGuard {A} (dev_id : Z) (body : M St A) : M St A :=
  fun s =>
    let prev_id := current_device (env s) in
    if prev_id =? dev_id then body s
    else finally body
           (fun s' => mkSt (this s') (SetDeviceId prev_id (env s')))
           (mkSt (this s) (SetDeviceId dev_id (env s))).

Definition NeedRecord (h : RecordedGpuMallocHelper) : bool :=
  negb (limit_size_ h =? 0).

Definition RecordedSize (h : RecordedGpuMallocHelper) : Z := cur_size_ h.

Definition LimitSize (h : RecordedGpuMallocHelper) : Z := limit_size_ h.

(** What [GetMemInfo] writes through its four pointers. *)
Record MemInfo : Type := mkMemInfo {
  avail : Z;
  total : Z;
  actual_avail : Z;
  actual_total : Z
}.

Section Build.

(** The build option [PADDLE_WITH_TESTING]. *)
Variable PADDLE_WITH_TESTING : bool.

(** [Malloc(ptr, size, malloc_managed_memory)].  [answer] is what the native
    allocation answers if it is called: its status and the address it
    stores in [*ptr].  The result is the returned status and, on success,
    the address. *)
Definition Malloc (size : Z) (malloc_managed_memory : bool)
           (answer : gpuError_t * Z) : M St (gpuError_t * option Z) :=
  let* s := get in
  let h := this s in
  if NeedRecord h && (limit_size_ h <? Word64.add (cur_size_ h) size) then
    ret (gpuErrorOutOfMemory, None)
  else
    CUDADeviceGuard (dev_id_ h)
      (let* result :=
         (if malloc_managed_memory
          then native (cudaMallocManaged size) (fst answer)
          else native (cudaMalloc size) (fst answer)) in
       match result with
       | gpuSuccess =>
           let* _ := fetch_add size in
           let* _ := on_env (DEVICE_MEMORY_STAT_UPDATE_Reserved
                               (dev_id_ h) (Word64.to_int64 size)) in
           let* _ := (if PADDLE_WITH_TESTING
                      then on_this (fun h => set_gpu_ptrs
                                     (PtrSet.insert (snd answer) (gpu_ptrs h)) h)
                      else ret tt) in
           ret (gpuSuccess, Some (snd answer))
       | _ =>
           let* _ := RaiseNonOutOfMemoryError result in
           ret (gpuErrorOutOfMemory, None)
       end).

(** [Free(ptr, size)]; [answer] is the status of the native free. *)
Definition Free (ptr size : Z) (answer : gpuError_t) : M St unit :=
  let* s := get in
  let h := this s in
  CUDADeviceGuard (dev_id_ h)
    (let* err := native (cudaFree ptr) answer in
     let* _ :=
       match err with
       | gpuErrorUnloading =>
           let* _ := GpuGetLastError in
           ret tt
       | _ =>
           let* _ := PADDLE_ENFORCE_GPU_SUCCESS err in
           let* _ := fetch_sub size in
           on_env (DEVICE_MEMORY_STAT_UPDATE_Reserved
                     (dev_id_ h) (Word64.to_int64 (Word64.neg size)))
       end in
     if PADDLE_WITH_TESTING
     then on_this (fun h => set_gpu_ptrs (PtrSet.erase ptr (gpu_ptrs h)) h)
     else ret tt).

Definition GetBasePtr (ptr : Z) : M St Z :=
  if PADDLE_WITH_TESTING then
    let* s := get in
    let ptrs := gpu_ptrs (this s) in
    let it := PtrSet.upper_bound ptr ptrs in
    if (it =? PtrSet.begin ptrs)%nat then ret nullptr
    else ret (PtrSet.deref (Nat.pred it) ptrs)
  else throw Unimplemented.

End Build.

(** [GetMemInfo(avail, total, actual_avail, actual_total)]; [answer] is the
    status of the native query and the values it leaves in [*actual_avail]
    and [*actual_total]. *)
Definition GetMemInfo (answer : gpuError_t * (Z * Z)) : M St (bool * MemInfo) :=
  let* s := get in
  let* actual :=
    CUDADeviceGuard (dev_id_ (this s))
      (let* result := native cudaMemGetInfo (fst answer) in
       let actual_avail := match result with
                           | gpuSuccess => fst (snd answer)
                           | _ => 0
                           end in
       let* _ := RaiseNonOutOfMemoryError result in
       ret (actual_avail, snd (snd answer))) in
  let* s := get in
  let h := this s in
  if NeedRecord h then
    let avail := Z.min (fst actual) (Word64.sub (limit_size_ h) (cur_size_ h)) in
    let total := Z.min (snd actual) (limit_size_ h) in
    ret (total <? snd actual, mkMemInfo avail total (fst actual) (snd actual))
  else
    ret (false, mkMemInfo (fst actual) (snd actual) (fst actual) (snd actual)).

(** [MemCreate] and [MemRelease] (CUDA 10.2 and later); [answer] is the
    status of the driver call. *)
Definition MemCreate (size : Z) (answer : CUresult) : M St CUresult :=
  let* result := native_driver (cuMemCreate size) answer in
  let* _ := match result with
            | CUDA_SUCCESS => fetch_add size
            | _ => ret tt
            end in
  ret result.

Definition MemRelease (handle size : Z) (answer : CUresult) : M St CUresult :=
  let* result := native_driver (cuMemRelease handle) answer in
  let* _ := match result with
            | CUDA_SUCCESS => fetch_sub size
            | _ => ret tt
            end in
  ret result.

(** ** The registry of helpers and the free functions of the file *)

(** The function-local [instances_] of [Instance], the class-static
    [once_flag_], and the environment. *)
Record World : Type := mkWorld {
  once_flag_ : bool;
  instances_ : list RecordedGpuMallocHelper;
  wenv : Env
}.

(** Runs a member function on the helper at position [i] of [instances_]
    and stores the object back.  Every use follows a successful [Instance],
    which has checked that the position exists. *)
Definition at_instance {A} (i : nat) (m : M St A) : M World A :=
  fun w =>
    match instances_ w !! i with
    | Some h =>
        match m (mkSt h (wenv w)) with
        | (r, s') =>
            (r, mkWorld (once_flag_ w) (<[i := this s']> (instances_ w)) (env s'))
        end
    | None => (Throw OutOfRange, w)
    end.

(** A [const] member function: it only reads the object. *)
Definition read_instance {A} (i : nat) (f : RecordedGpuMallocHelper -> A) : M World A :=
  at_instance i (let* s := get in ret (f (this s))).

(** Modelled from the spec: [GetGPUDeviceCount()], a read-only accessor of
    the device query facade. *)
Definition GetGPUDeviceCount (v : Env) : Z := device_count v.

Section Flags.

Variable PADDLE_WITH_TESTING : bool.
Variable FLAGS_fraction_of_gpu_memory_to_use : spec_float.
Variable FLAGS_initial_gpu_memory_in_mb : Z.
Variable FLAGS_reallocate_gpu_memory_in_mb : Z.
Variable FLAGS_gpu_memory_limit_mb : Z.
Variable FLAGS_enable_gpu_memory_usage_log : bool.

(** [GpuAllocSize(realloc)].  [available_to_alloc] is what
    [GpuAvailableMemToAlloc()] answers.  The conditional expression has
    the type [double], the common type of its two branches, and its value
    is converted to [size_t] when [alloc_bytes] is initialised. *)
Definition GpuAllocSize (realloc : bool) (available_to_alloc : Z) : result Z :=
  if negb (0 <? available_to_alloc) then Throw ResourceExhausted
  else
    let flag_mb := if realloc then FLAGS_reallocate_gpu_memory_in_mb
                   else FLAGS_initial_gpu_memory_in_mb in
    let alloc :=
      if 0 <? flag_mb
      then Double.of_size_t (Word64.shl flag_mb 20)
      else Double.mul (Double.of_size_t available_to_alloc)
                      FLAGS_fraction_of_gpu_memory_to_use in
    match Double.to_size_t alloc with
    | None => Throw UndefinedConversion
    | Some alloc_bytes =>
        if negb (alloc_bytes <=? available_to_alloc)
        then Throw ResourceExhausted
        else Ok alloc_bytes
    end.

Definition GpuInitAllocSize (available_to_alloc : Z) : result Z :=
  GpuAllocSize false available_to_alloc.

Definition GpuReallocSize (available_to_alloc : Z) : result Z :=
  GpuAllocSize true available_to_alloc.

(** [GpuMaxAllocSize()]; each of the two calls reads the available memory
    itself. *)
Definition GpuMaxAllocSize (available_init available_realloc : Z) : result Z :=
  match GpuInitAllocSize available_init with
  | Throw e => Throw e
  | Ok a =>
      match GpuReallocSize available_realloc with
      | Throw e => Throw e
      | Ok b => Ok (Z.max a b)
      end
  end.

(** The constructor [RecordedGpuMallocHelper(dev_id, limit_size)]. *)
Definition RecordedGpuMallocHelper_new (dev_id limit_size : Z) (v : Env)
  : RecordedGpuMallocHelper * Env :=
  (mkHelper dev_id limit_size 0 (negb (limit_size =? 0)) PtrSet.empty,
   if FLAGS_enable_gpu_memory_usage_log
   then DEVICE_MEMORY_STAT_UPDATE_Reserved dev_id 0 v
   else v).

(** The loop of the once-only initialiser: [n] iterations left, next
    ordinal [i]. *)
Fixpoint emplace_instances (n : nat) (i : Z) (w : World) : World :=
  match n with
  | O => w
  | S n' =>
      match RecordedGpuMallocHelper_new
              i (Word64.shl FLAGS_gpu_memory_limit_mb 20) (wenv w) with
      | (h, v) =>
          emplace_instances n' (i + 1)
            (mkWorld (once_flag_ w) (instances_ w ++ [h]) v)
      end
  end.

Definition call_once_init (w : World) : World :=
  if once_flag_ w then w
  else
    let dev_cnt := GetGPUDeviceCount (wenv w) in
    let w' := emplace_instances (Z.to_nat dev_cnt) 0 w in
    mkWorld true (instances_ w') (wenv w').

(** [Instance(dev_id)]; the returned pointer [instances_[dev_id].get()] is
    the position in [instances_]. *)
Definition Instance (dev_id : Z) : M World nat :=
  let* _ := modify call_once_init in
  let* w := get in
  if negb (0 <=? dev_id) then throw OutOfRange
  else if negb (dev_id <? Z.of_nat (length (instances_ w))) then throw OutOfRange
  else ret (Z.to_nat dev_id).

Definition RecordedGpuMalloc (size : Z) (dev_id : Z) (malloc_managed_memory : bool)
           (answer : gpuError_t * Z) : M World (gpuError_t * option Z) :=
  let* i := Instance dev_id in
  at_instance i (Malloc PADDLE_WITH_TESTING size malloc_managed_memory answer).

Definition RecordedGpuFree (p size : Z) (dev_id : Z) (answer : gpuError_t)
  : M World unit :=
  let* i := Instance dev_id in
  at_instance i (Free PADDLE_WITH_TESTING p size answer).

Definition RecordedGpuMemCreate (size : Z) (dev_id : Z) (answer : CUresult)
  : M World CUresult :=
  let* i := Instance dev_id in
  at_instance i (MemCreate size answer).

Definition RecordedGpuMemRelease (handle size : Z) (dev_id : Z) (answer : CUresult)
  : M World CUresult :=
  let* i := Instance dev_id in
  at_instance i (MemRelease handle size answer).

Definition RecordedGpuMemGetInfo (dev_id : Z) (answer : gpuError_t * (Z * Z))
  : M World (bool * MemInfo) :=
  let* i := Instance dev_id in
  at_instance i (GetMemInfo answer).

Definition RecordedGpuMallocSize (dev_id : Z) : M World Z :=
  let* i := Instance dev_id in
  read_instance i RecordedSize.

Definition RecordedGpuLimitSize (dev_id : Z) : M World Z :=
  let* i := Instance dev_id in
  read_instance i LimitSize.

Definition IsGpuMallocRecorded (dev_id : Z) : M World bool :=
  let* i := Instance dev_id in
  read_instance i NeedRecord.

Definition GetGpuBasePtr (ptr : Z) (dev_id : Z) : M World Z :=
  let* i := Instance dev_id in
  at_instance i (GetBasePtr PADDLE_WITH_TESTING ptr).

End Flags.

(** The process before the first call of [Instance]. *)
Definition World_start (v : Env) : World := mkWorld false [] v.

(** ** Sequences of calls on one helper

    A caller's view of one device: the [Malloc] and [Free] calls it makes,
    each with the answer of the native primitive, and the blocks that are
    allocated and not yet freed. *)

Inductive call : Type :=
| CallMalloc (size : Z) (malloc_managed_memory : bool) (answer : gpuError_t * Z)
| CallFree (ptr size : Z) (answer : gpuError_t).

(** A block: its base address and its size. *)
Definition block : Type := (Z * Z)%type.

Definition block_eqb (a b : block) : bool :=
  (fst a =? fst b) && (snd a =? snd b).

Fixpoint remove_block (b : block) (l : list block) : list block :=
  match l with
  | [] => []
  | x :: l' => if block_eqb b x then l' else x :: remove_block b l'
  end.

Fixpoint sum_sizes (l : list block) : Z :=
  match l with
  | [] => 0
  | b :: l' => snd b + sum_sizes l'
  end.

Record Run : Type := mkRun {
  state : St;
  outstanding : list block
}.

(** One call; [None] when the call raises, which ends the process. *)
Definition step (testing : bool) (c : call) (r : Run) : option Run :=
  match c with
  | CallMalloc size managed answer =>
      match Malloc testing size managed answer (state r) with
      | (Ok (gpuSuccess, Some p), s') =>
          Some (mkRun s' ((p, size) :: outstanding r))
      | (Ok _, s') => Some (mkRun s' (outstanding r))
      | (Throw _, _) => None
      end
  | CallFree ptr size answer =>
      match Free testing ptr size answer (state r) with
      | (Ok _, s') => Some (mkRun s' (remove_block (ptr, size) (outstanding r)))
      | (Throw _, _) => None
      end
  end.

Fixpoint run (testing : bool) (cs : list call) (r : Run) : option Run :=
  match cs with
  | [] => Some r
  | c :: cs' =>
      match step testing c r with
      | Some r' => run testing cs' r'
      | None => None
      end
  end.

(** A helper as its constructor leaves it, in any environment. *)
Definition Run_start (dev_id limit_size : Z) (v : Env) : Run :=
  mkRun (mkSt (mkHelper dev_id limit_size 0 (negb (limit_size =? 0)) PtrSet.empty) v) [].

(** *** What callers and the device can do

    The block of a successful native allocation lies in the 64-bit address
    space, a block of positive size does not start at the null address, and
    it shares no byte with a block still allocated. *)

Definition addressable (b : block) : bool :=
  (0 <=? fst b) && (0 <=? snd b) && (fst b + snd b <=? Word64.modulus)
  && ((snd b =? 0) || (0 <? fst b)).

Definition disjoint (a b : block) : bool :=
  (snd a =? 0) || (snd b =? 0)
  || (fst a + snd a <=? fst b) || (fst b + snd b <=? fst a).

(** [Malloc]: the size is a [size_t]; the native allocation answers success
    with a fresh block or reports out of memory.  [Free]: the caller frees a
    block that is outstanding, with its size, and the native free succeeds. *)
Definition admissible_call (c : call) (r : Run) : bool :=
  match c with
  | CallMalloc size _ (gpuSuccess, p) =>
      Word64.in_range size && addressable (p, size)
      && forallb (disjoint (p, size)) (outstanding r)
  | CallMalloc size _ (gpuErrorOutOfMemory, _) => Word64.in_range size
  | CallMalloc _ _ _ => false
  | CallFree ptr size gpuSuccess => existsb (block_eqb (ptr, size)) (outstanding r)
  | CallFree _ _ _ => false
  end.

(** Every call of the sequence is admissible in the state it is made in. *)
Fixpoint admissible (testing : bool) (cs : list call) (r : Run) : bool :=
  match cs with
  | [] => true
  | c :: cs' =>
      admissible_call c r
      && match step testing c r with
         | Some r' => admissible testing cs' r'
         | None => true
         end
  end.

(** ** Predicates and sample data used by the statements *)

(** The helper's limit and ordinal are [const] members: no member function
    changes them. *)
Definition same_identity (h h' : RecordedGpuMallocHelper) : Prop :=
  dev_id_ h' = dev_id_ h /\ limit_size_ h' = limit_size_ h /\ mtx_ h' = mtx_ h.

(** The test [NeedRecord() && cur_size_.load() + size > limit_size_]. *)
Definition over_limit (h : RecordedGpuMallocHelper) (size : Z) : bool :=
  NeedRecord h && (limit_size_ h <? Word64.add (cur_size_ h) size).

(** The native query lets [GetMemInfo] return: it succeeded with no fatal
    error pending in the runtime's flag, or it reported out of memory. *)
Definition query_passes (status : gpuError_t) (s : St) : Prop :=
  (status = gpuSuccess
   /\ (last_error (env s) = gpuSuccess \/ last_error (env s) = gpuErrorOutOfMemory))
  \/ status = gpuErrorOutOfMemory.

(** What is left in [*actual_avail] after the query. *)
Definition actual_avail_after (status : gpuError_t) (a : Z) : Z :=
  match status with
  | gpuSuccess => a
  | _ => 0
  end.

(** No two blocks of the list share a byte. *)
Fixpoint pairwise_disjoint (bs : list block) : Prop :=
  match bs with
  | [] => True
  | b :: r => Forall (fun x => disjoint b x = true) r /\ pairwise_disjoint r
  end.

(** The counter is the number of bytes outstanding, and it respects the
    limit when there is one. *)
Record accounted (limit : Z) (r : Run) : Prop := mkAccounted {
  acc_limit : limit_size_ (this (state r)) = limit;
  acc_counter : cur_size_ (this (state r)) = sum_sizes (outstanding r);
  acc_addressable : Forall (fun b => addressable b = true) (outstanding r);
  acc_disjoint : pairwise_disjoint (outstanding r);
  acc_bounded : limit <> 0 -> cur_size_ (this (state r)) <= limit
}.

(** Scenario A of the specification: limit 100 MB; 60 MB is allocated, 50 MB
    is refused, the 60 MB are freed, 50 MB is allocated. *)
Definition scenario_A : list call :=
  [ CallMalloc 62914560 false (gpuSuccess, 4096);
    CallMalloc 52428800 false (gpuSuccess, 67108864);
    CallFree 4096 62914560 gpuSuccess;
    CallMalloc 52428800 false (gpuSuccess, 4096) ].

(** What [GetBasePtr] computes from the index in a testing build. *)
Definition base_of (ptr : Z) (s : PtrSet.t) : Z :=
  let it := PtrSet.upper_bound ptr s in
  if (it =? PtrSet.begin s)%nat then nullptr
  else PtrSet.deref (Nat.pred it) s.

(** The table of a process: empty before the once-only initialiser has run;
    afterwards one helper per device, the helper at position [i] being the
    one constructed for ordinal [i]. *)
Definition World_ok (w : World) : Prop :=
  if once_flag_ w
  then length (instances_ w) = Z.to_nat (device_count (wenv w))
       /\ forall (i : nat) h, instances_ w !! i = Some h -> dev_id_ h = Z.of_nat i
  else instances_ w = [].

(** The fraction [0.92] as a [double]. *)
Definition fraction_0_92 : spec_float := S754_finite false 8286623314361713 (-53).

(** ** Further functions of the file and predicates for their properties *)

(** Modelled from the spec: [GetCurrentDeviceId()], the ambient device of
    the calling thread. *)
Definition GetCurrentDeviceId (v : Env) : Z := current_device v.

(** [GpuMemoryUsage(available, total)]: the limited view of the ambient
    device; the two actual values are dropped. *)
Definition GpuMemoryUsage (FLAGS_gpu_memory_limit_mb : Z)
           (FLAGS_enable_gpu_memory_usage_log : bool)
           (answer : gpuError_t * (Z * Z)) : M World (Z * Z) :=
  let* w := get in
  let* r := RecordedGpuMemGetInfo FLAGS_gpu_memory_limit_mb
              FLAGS_enable_gpu_memory_usage_log
              (GetCurrentDeviceId (wenv w)) answer in
  ret (avail (snd r), total (snd r)).

(** [GpuMaxChunkSize()]. *)
Definition GpuMaxChunkSize (FLAGS_fraction_of_gpu_memory_to_use : spec_float)
           (FLAGS_initial_gpu_memory_in_mb FLAGS_reallocate_gpu_memory_in_mb : Z)
           (available_init available_realloc : Z) : result Z :=
  GpuMaxAllocSize FLAGS_fraction_of_gpu_memory_to_use
                  FLAGS_initial_gpu_memory_in_mb FLAGS_reallocate_gpu_memory_in_mb
                  available_init available_realloc.

(** A status that [RaiseNonOutOfMemoryError] lets pass. *)
Definition benign (e : gpuError_t) : bool :=
  match e with
  | gpuSuccess | gpuErrorOutOfMemory => true
  | _ => false
  end.

(** Every [Malloc] of the sequence asks for at least one byte. *)
Definition positive_requests (cs : list call) : bool :=
  forallb (fun c => match c with
                    | CallMalloc size _ _ => 0 <? size
                    | CallFree _ _ _ => true
                    end) cs.

(** The address index holds the base addresses of the outstanding blocks,
    and every outstanding block has a positive size. *)
Record indexed (r : Run) : Prop := mkIndexed {
  idx_sorted : PtrSet.sorted (gpu_ptrs (this (state r)));
  idx_bases : forall q, In q (gpu_ptrs (this (state r)))
                        <-> exists size, In (q, size) (outstanding r);
  idx_positive : Forall (fun b => 0 < snd b) (outstanding r)
}.

(** The helper [Instance] constructs for ordinal [i] under a limit flag. *)
Definition fresh_helper (FLAGS_gpu_memory_limit_mb : Z) (i : Z)
  : RecordedGpuMallocHelper :=
  let limit := Word64.shl FLAGS_gpu_memory_limit_mb 20 in
  mkHelper i limit 0 (negb (limit =? 0)) PtrSet.empty.

(** What a call on device [dev_id] may change in the registry, from [w] to
    [w']: the table stays well formed and initialised, the helpers of the
    other devices are the same, and the helper of the device keeps its
    ordinal, its limit and its mutex. *)
Definition device_frame (dev_id : Z) (w w' : World) : Prop :=
  World_ok w' /\ once_flag_ w' = true
  /\ length (instances_ w') = length (instances_ w)
  /\ device_count (wenv w') = device_count (wenv w)
  /\ (forall j : nat, Z.of_nat j <> dev_id ->
                      instances_ w' !! j = instances_ w !! j)
  /\ (forall h, 0 <= dev_id ->
                instances_ w !! Z.to_nat dev_id = Some h ->
                exists h', instances_ w' !! Z.to_nat dev_id = Some h'
                           /\ same_identity h h').

(** A member function keeps the [const] members of its object and the
    device count of the environment, on every exit. *)
Definition keeps_identity {A} (m : M St A) : Prop :=
  forall s, same_identity (this s) (this (snd (m s)))
            /\ device_count (env (snd (m s))) = device_count (env s).

(** The native allocation calls of a log. *)
Definition is_allocation (c : native_call) : bool :=
  match c with
  | cudaMalloc _ | cudaMallocManaged _ => true
  | _ => false
  end.

(** * Properties *)

(** ** Arithmetic of the 64-bit counter *)

Lemma modulus_eq : Word64.modulus = 18446744073709551616.
Proof. reflexivity. Qed.

Lemma wrap_small z : 0 <= z < Word64.modulus -> Word64.wrap z = z.
Proof. intros H. unfold Word64.wrap. apply Z.mod_small. exact H. Qed.

Lemma wrap_range z : 0 <= Word64.wrap z < Word64.modulus.
Proof. unfold Word64.wrap. apply Z.mod_pos_bound. rewrite modulus_eq. lia. Qed.

Lemma add_no_carry a b :
  0 <= a -> 0 <= b -> a + b < Word64.modulus -> Word64.add a b = a + b.
Proof. intros. unfold Word64.add. apply wrap_small. lia. Qed.

Lemma sub_no_borrow a b :
  0 <= b <= a -> a < Word64.modulus -> Word64.sub a b = a - b.
Proof. intros. unfold Word64.sub. apply wrap_small. lia. Qed.

Lemma sub_borrow a b :
  0 <= a < b -> b < Word64.modulus -> Word64.sub a b = a - b + Word64.modulus.
Proof.
  intros Ha Hb. unfold Word64.sub, Word64.wrap.
  symmetry. apply (Z.mod_unique _ _ (-1)); lia.
Qed.

Lemma in_range_spec z : Word64.in_range z = true <-> 0 <= z < Word64.modulus.
Proof. unfold Word64.in_range. rewrite andb_true_iff, Z.leb_le, Z.ltb_lt. tauto. Qed.

(** ** Unfolding the monad *)

Ltac unfold_monad :=
  unfold native, native_driver, GpuGetLastError, PADDLE_ENFORCE_GPU_SUCCESS,
    fetch_add, fetch_sub, on_env, on_this, finally, bind, ret, throw, get, modify
    in *.

(** ** [Malloc]: the limit check *)

Lemma Malloc_rejected testing s size managed answer :
  over_limit (this s) size = true ->
  Malloc testing size managed answer s = (Ok (gpuErrorOutOfMemory, None), s).
Proof.
  intros Hover. unfold Malloc. unfold over_limit in Hover.
  unfold_monad. cbn. rewrite Hover. reflexivity.
Qed.

Lemma over_limit_true h size :
  limit_size_ h <> 0 ->
  limit_size_ h < Word64.add (cur_size_ h) size ->
  over_limit h size = true.
Proof.
  intros Hlim Hover. unfold over_limit, NeedRecord.
  apply Z.eqb_neq in Hlim. rewrite Hlim.
  apply Z.ltb_lt in Hover. rewrite Hover. reflexivity.
Qed.

(** C1.  With recording enabled ([limit_size_ <> 0]), a request for which
    the sum [cur_size_ + size], as the code computes it in [uint64_t], is
    above the limit returns [gpuErrorOutOfMemory] at once: the whole state
    is left as it was, so no native call is logged and [cur_size_] keeps its
    value.  The [uint64_t] sum is the sum of the two numbers whenever that
    sum is below [2^64], and then the test is the comparison of the sum
    with the limit. *)
Theorem Malloc_over_limit (testing : bool) (h : RecordedGpuMallocHelper) (v : Env)
        (size : Z) (managed : bool) (answer : gpuError_t * Z) :
  limit_size_ h <> 0 ->
  (limit_size_ h < Word64.add (cur_size_ h) size ->
   Malloc testing size managed answer (mkSt h v)
   = (Ok (gpuErrorOutOfMemory, None), mkSt h v))
  /\ (0 <= cur_size_ h -> 0 <= size -> cur_size_ h + size < Word64.modulus ->
      limit_size_ h < cur_size_ h + size ->
      Malloc testing size managed answer (mkSt h v)
      = (Ok (gpuErrorOutOfMemory, None), mkSt h v)).
Proof.
  intros Hlim. split.
  - intros Hover.
    apply Malloc_rejected. cbn. apply over_limit_true; assumption.
  - intros Hc Hs Hfit Hover.
    apply Malloc_rejected. cbn. apply over_limit_true; [assumption |].
    rewrite add_no_carry; assumption.
Qed.

Lemma Malloc_over_limit_witness :
  Malloc true 52428800 false (gpuSuccess, 4096)
         (mkSt (mkHelper 0 104857600 62914560 true [4096])
               (mkEnv gpuSuccess 0 1 [] ∅))
  = (Ok (gpuErrorOutOfMemory, None),
     mkSt (mkHelper 0 104857600 62914560 true [4096])
          (mkEnv gpuSuccess 0 1 [] ∅))
  /\ Malloc false 1048576 true (gpuSuccess, 8192)
            (mkSt (mkHelper 1 1048576 1 true []) (mkEnv gpuSuccess 0 2 [] ∅))
     = (Ok (gpuErrorOutOfMemory, None),
        mkSt (mkHelper 1 1048576 1 true []) (mkEnv gpuSuccess 0 2 [] ∅)).
Proof.
  split.
  - apply (proj1 (Malloc_over_limit true
                    (mkHelper 0 104857600 62914560 true [4096])
                    (mkEnv gpuSuccess 0 1 [] ∅) 52428800 false (gpuSuccess, 4096)
                    ltac:(cbn; discriminate))).
    cbn. reflexivity.
  - apply (proj2 (Malloc_over_limit false
                    (mkHelper 1 1048576 1 true [])
                    (mkEnv gpuSuccess 0 2 [] ∅) 1048576 true (gpuSuccess, 8192)
                    ltac:(cbn; discriminate)));
      cbn; unfold Word64.modulus; lia.
Defined.

(** C1 with the sum read as the sum of the two numbers fails at a carry:
    with the limit at 1 MB and the counter at 1, a request of [2^64 - 1]
    bytes has a sum above the limit, but the 64-bit sum is 0, the request
    passes the test and the native allocation is called; when the native
    allocation answers with an address, [Malloc] returns [gpuSuccess] and
    the counter is 0. *)
Lemma Malloc_carry_reaches_driver :
  let h := mkHelper 0 1048576 1 true [] in
  let s := mkSt h (mkEnv gpuSuccess 0 1 [] ∅) in
  let size := 18446744073709551615 in
  let refused := Malloc false size false (gpuErrorOutOfMemory, 0) s in
  let granted := Malloc false size false (gpuSuccess, 4096) s in
  limit_size_ h <> 0
  /\ limit_size_ h < cur_size_ h + size
  /\ fst refused = Ok (gpuErrorOutOfMemory, None)
  /\ calls (env (snd refused)) = [cudaGetLastError; cudaMalloc size]
  /\ calls (env s) = []
  /\ fst granted = Ok (gpuSuccess, Some 4096)
  /\ cur_size_ (this (snd granted)) = 0
  /\ cur_size_ (this s) = 1.
Proof.
  cbn zeta. split; [cbn; discriminate |]. split; [cbn; reflexivity |].
  vm_compute. repeat split.
Qed.

(** ** [Malloc]: the native allocation and its errors *)

Lemma Malloc_native_success testing s size managed p :
  over_limit (this s) size = false ->
  let out := Malloc testing size managed (gpuSuccess, p) s in
  fst out = Ok (gpuSuccess, Some p)
  /\ cur_size_ (this (snd out)) = Word64.add (cur_size_ (this s)) size
  /\ gpu_ptrs (this (snd out))
     = (if testing then PtrSet.insert p (gpu_ptrs (this s)) else gpu_ptrs (this s))
  /\ same_identity (this s) (this (snd out))
  /\ last_error (env (snd out)) = last_error (env s)
  /\ current_device (env (snd out)) = current_device (env s)
  /\ DEVICE_MEMORY_STAT_CURRENT_VALUE_Reserved (dev_id_ (this s)) (env (snd out))
     = DEVICE_MEMORY_STAT_CURRENT_VALUE_Reserved (dev_id_ (this s)) (env s)
       + Word64.to_int64 size.
Proof.
  intros Hover. unfold over_limit in Hover.
  destruct s as [h v]. cbn in Hover.
  unfold Malloc. unfold_monad. cbn. rewrite Hover.
  unfold CUDADeviceGuard. cbn.
  unfold DEVICE_MEMORY_STAT_CURRENT_VALUE_Reserved, same_identity.
  destruct (current_device v =? dev_id_ h) eqn:Edev;
    destruct managed; destruct testing; unfold_monad; cbn;
    rewrite ?lookup_insert_eq; cbn;
    try apply Z.eqb_eq in Edev; repeat split; auto.
Qed.

Lemma Malloc_native_out_of_memory testing s size managed p :
  over_limit (this s) size = false ->
  let out := Malloc testing size managed (gpuErrorOutOfMemory, p) s in
  fst out = Ok (gpuErrorOutOfMemory, None)
  /\ this (snd out) = this s
  /\ last_error (env (snd out)) = gpuSuccess
  /\ current_device (env (snd out)) = current_device (env s)
  /\ reserved (env (snd out)) = reserved (env s).
Proof.
  intros Hover. unfold over_limit in Hover.
  destruct s as [h v]. cbn in Hover.
  unfold Malloc. unfold_monad. cbn. rewrite Hover.
  unfold CUDADeviceGuard. cbn.
  destruct (current_device v =? dev_id_ h) eqn:Edev;
    destruct managed; unfold RaiseNonOutOfMemoryError; unfold_monad; cbn;
    try apply Z.eqb_eq in Edev; repeat split; auto.
Qed.

Lemma Malloc_native_fatal testing s size managed e p :
  over_limit (this s) size = false ->
  e <> gpuSuccess -> e <> gpuErrorOutOfMemory ->
  fst (Malloc testing size managed (e, p) s) = Throw (External e).
Proof.
  intros Hover Hs Ho. unfold over_limit in Hover.
  destruct s as [h v]. cbn in Hover.
  unfold Malloc. unfold_monad. cbn. rewrite Hover.
  unfold CUDADeviceGuard. cbn.
  destruct (current_device v =? dev_id_ h) eqn:Edev;
    destruct managed; destruct e; try congruence;
    unfold RaiseNonOutOfMemoryError; unfold_monad; cbn; reflexivity.
Qed.

(** C4.  [Malloc] returns no status other than [gpuSuccess] and
    [gpuErrorOutOfMemory].  When the request passes the limit test and the
    native allocation fails: an out-of-memory answer is returned as
    [gpuErrorOutOfMemory] with the error flag reset and the helper
    untouched, and every other failure is raised as an [External] error. *)
Theorem Malloc_error_normalized (testing : bool) (s : St) (size : Z)
        (managed : bool) (answer : gpuError_t * Z) :
  let out := Malloc testing size managed answer s in
  (forall status ptr,
      fst out = Ok (status, ptr) ->
      status = gpuSuccess \/ status = gpuErrorOutOfMemory)
  /\ (over_limit (this s) size = false ->
      match fst answer with
      | gpuSuccess => fst out = Ok (gpuSuccess, Some (snd answer))
      | gpuErrorOutOfMemory =>
          fst out = Ok (gpuErrorOutOfMemory, None)
          /\ last_error (env (snd out)) = gpuSuccess
          /\ this (snd out) = this s
      | e => fst out = Throw (External e)
      end).
Proof.
  destruct answer as [e p]. cbn zeta. cbn [fst snd].
  destruct (over_limit (this s) size) eqn:Hover.
  - rewrite (Malloc_rejected testing s size managed (e, p) Hover). cbn.
    split; [| discriminate].
    intros status ptr H. inversion H. right. reflexivity.
  - destruct e.
    + pose proof (Malloc_native_success testing s size managed p Hover) as (H1 & _).
      split; [| intros _; exact H1].
      intros status ptr H. rewrite H1 in H. inversion H. left. reflexivity.
    + pose proof (Malloc_native_out_of_memory testing s size managed p Hover)
        as (H1 & H2 & H3 & _).
      split; [| intros _; auto].
      intros status ptr H. rewrite H1 in H. inversion H. right. reflexivity.
    + pose proof (Malloc_native_fatal testing s size managed gpuErrorUnloading p Hover)
        as H1.
      rewrite H1 by discriminate.
      split; [intros status ptr H; discriminate | reflexivity].
    + pose proof (Malloc_native_fatal testing s size managed (gpuErrorOther code) p Hover)
        as H1.
      rewrite H1 by discriminate.
      split; [intros status ptr H; discriminate | reflexivity].
Qed.

Lemma Malloc_error_normalized_witness :
  let s := mkSt (mkHelper 0 104857600 0 true []) (mkEnv gpuSuccess 0 1 [] ∅) in
  let out := Malloc true 4096 false (gpuErrorOutOfMemory, 0) s in
  fst out = Ok (gpuErrorOutOfMemory, None)
  /\ last_error (env (snd out)) = gpuSuccess
  /\ this (snd out) = this s.
Proof.
  exact (proj2 (Malloc_error_normalized true
                  (mkSt (mkHelper 0 104857600 0 true []) (mkEnv gpuSuccess 0 1 [] ∅))
                  4096 false (gpuErrorOutOfMemory, 0))
               eq_refl).
Defined.

(** ** [Free] *)

Lemma Free_native_success testing s ptr size :
  let out := Free testing ptr size gpuSuccess s in
  fst out = Ok tt
  /\ cur_size_ (this (snd out)) = Word64.sub (cur_size_ (this s)) size
  /\ gpu_ptrs (this (snd out))
     = (if testing then PtrSet.erase ptr (gpu_ptrs (this s)) else gpu_ptrs (this s))
  /\ same_identity (this s) (this (snd out))
  /\ last_error (env (snd out)) = last_error (env s)
  /\ current_device (env (snd out)) = current_device (env s)
  /\ DEVICE_MEMORY_STAT_CURRENT_VALUE_Reserved (dev_id_ (this s)) (env (snd out))
     = DEVICE_MEMORY_STAT_CURRENT_VALUE_Reserved (dev_id_ (this s)) (env s)
       + Word64.to_int64 (Word64.neg size).
Proof.
  destruct s as [h v].
  unfold Free. unfold_monad. cbn.
  unfold CUDADeviceGuard. cbn.
  unfold DEVICE_MEMORY_STAT_CURRENT_VALUE_Reserved, same_identity.
  destruct (current_device v =? dev_id_ h) eqn:Edev;
    destruct testing; unfold_monad; cbn;
    rewrite ?lookup_insert_eq; cbn;
    try apply Z.eqb_eq in Edev; repeat split; auto.
Qed.

Lemma Free_native_unloading testing s ptr size :
  let out := Free testing ptr size gpuErrorUnloading s in
  fst out = Ok tt
  /\ cur_size_ (this (snd out)) = cur_size_ (this s)
  /\ gpu_ptrs (this (snd out))
     = (if testing then PtrSet.erase ptr (gpu_ptrs (this s)) else gpu_ptrs (this s))
  /\ same_identity (this s) (this (snd out))
  /\ last_error (env (snd out)) = gpuSuccess
  /\ current_device (env (snd out)) = current_device (env s)
  /\ reserved (env (snd out)) = reserved (env s).
Proof.
  destruct s as [h v].
  unfold Free. unfold_monad. cbn.
  unfold CUDADeviceGuard. cbn.
  unfold same_identity.
  destruct (current_device v =? dev_id_ h) eqn:Edev;
    destruct testing; unfold_monad; cbn;
    try apply Z.eqb_eq in Edev; repeat split; auto.
Qed.

Lemma Free_native_fatal testing s ptr size e :
  e <> gpuSuccess -> e <> gpuErrorUnloading ->
  fst (Free testing ptr size e s) = Throw (External e).
Proof.
  intros Hs Hu. destruct s as [h v].
  unfold Free. unfold_monad. cbn.
  unfold CUDADeviceGuard. cbn.
  destruct (current_device v =? dev_id_ h) eqn:Edev;
    destruct e; try congruence; unfold_monad; cbn; reflexivity.
Qed.

(** C5.  [Free] by the answer of the native free.  Driver already
    unloading: the call completes, the error flag is reset, [cur_size_] and
    the reserved-memory statistic keep their values.  Success: the call
    completes and [size] is subtracted from [cur_size_] (modulo [2^64]).
    Any other status is raised as an [External] error. *)
Theorem Free_by_native_status (testing : bool) (s : St) (ptr size : Z)
        (answer : gpuError_t) :
  let out := Free testing ptr size answer s in
  match answer with
  | gpuErrorUnloading =>
      fst out = Ok tt
      /\ last_error (env (snd out)) = gpuSuccess
      /\ cur_size_ (this (snd out)) = cur_size_ (this s)
      /\ reserved (env (snd out)) = reserved (env s)
  | gpuSuccess =>
      fst out = Ok tt
      /\ cur_size_ (this (snd out)) = Word64.sub (cur_size_ (this s)) size
  | e => fst out = Throw (External e)
  end.
Proof.
  cbn zeta. destruct answer.
  - pose proof (Free_native_success testing s ptr size) as (H1 & H2 & _). auto.
  - apply Free_native_fatal; discriminate.
  - pose proof (Free_native_unloading testing s ptr size)
      as (H1 & H2 & _ & _ & H5 & _ & H7). auto.
  - apply Free_native_fatal; discriminate.
Qed.

(** ** [GetMemInfo] *)

Lemma GetMemInfo_returns s status a t :
  query_passes status s ->
  let out := GetMemInfo (status, (a, t)) s in
  let h := this s in
  let a' := actual_avail_after status a in
  fst out
  = Ok (if NeedRecord h
        then (Z.min t (limit_size_ h) <? t,
              mkMemInfo (Z.min a' (Word64.sub (limit_size_ h) (cur_size_ h)))
                        (Z.min t (limit_size_ h)) a' t)
        else (false, mkMemInfo a' t a' t))
  /\ this (snd out) = h
  /\ last_error (env (snd out)) = gpuSuccess
  /\ current_device (env (snd out)) = current_device (env s).
Proof.
  intros Hq. destruct s as [h v]. cbn zeta. cbn [this].
  unfold GetMemInfo, RaiseNonOutOfMemoryError, CUDADeviceGuard.
  unfold_monad. cbn.
  destruct Hq as [[-> Hflag] | ->]; cbn in *.
  - destruct (current_device v =? dev_id_ h) eqn:Edev; cbn;
      destruct Hflag as [Hf | Hf]; rewrite Hf; cbn;
      destruct (NeedRecord h); cbn;
      try apply Z.eqb_eq in Edev; repeat split; auto.
  - destruct (current_device v =? dev_id_ h) eqn:Edev; cbn;
      destruct (NeedRecord h); cbn;
      try apply Z.eqb_eq in Edev; repeat split; auto.
Qed.

(** C3.  When [GetMemInfo] returns, with [a'] and [t] the values left in
    [*actual_avail] and [*actual_total]: with recording enabled it reports
    [avail = min(a', limit_size_ - cur_size_)], the difference taken in
    [uint64_t], [total = min(t, limit_size_)], and returns [total < t];
    with recording disabled it reports [a'] and [t] themselves and returns
    [false]. *)
Theorem GetMemInfo_values (s : St) (status : gpuError_t) (a t : Z) :
  query_passes status s ->
  let h := this s in
  let a' := actual_avail_after status a in
  (limit_size_ h <> 0 ->
   fst (GetMemInfo (status, (a, t)) s)
   = Ok (Z.min t (limit_size_ h) <? t,
         mkMemInfo (Z.min a' (Word64.sub (limit_size_ h) (cur_size_ h)))
                   (Z.min t (limit_size_ h)) a' t))
  /\ (limit_size_ h = 0 ->
      fst (GetMemInfo (status, (a, t)) s) = Ok (false, mkMemInfo a' t a' t)).
Proof.
  intros Hq. cbn zeta.
  pose proof (GetMemInfo_returns s status a t Hq) as (H & _).
  cbn zeta in H. rewrite H. unfold NeedRecord.
  split; intros Hlim.
  - apply Z.eqb_neq in Hlim. rewrite Hlim. reflexivity.
  - rewrite Hlim. reflexivity.
Qed.

Lemma GetMemInfo_values_witness :
  fst (GetMemInfo (gpuSuccess, (8589934592, 17179869184))
         (mkSt (mkHelper 0 104857600 62914560 true [])
               (mkEnv gpuSuccess 0 1 [] ∅)))
  = Ok (true, mkMemInfo 41943040 104857600 8589934592 17179869184).
Proof.
  refine (proj1 (GetMemInfo_values
                   (mkSt (mkHelper 0 104857600 62914560 true [])
                         (mkEnv gpuSuccess 0 1 [] ∅))
                   gpuSuccess 8589934592 17179869184 _) _).
  - left. split; [reflexivity | left; reflexivity].
  - cbn. discriminate.
Defined.

(** ** Blocks in the address space *)

Lemma addressable_spec b :
  addressable b = true <->
  0 <= fst b /\ 0 <= snd b /\ fst b + snd b <= Word64.modulus
  /\ (snd b = 0 \/ 0 < fst b).
Proof.
  unfold addressable.
  rewrite !andb_true_iff, orb_true_iff, !Z.leb_le, Z.eqb_eq, Z.ltb_lt. tauto.
Qed.

Lemma disjoint_spec a b :
  disjoint a b = true <->
  snd a = 0 \/ snd b = 0 \/ fst a + snd a <= fst b \/ fst b + snd b <= fst a.
Proof.
  unfold disjoint.
  rewrite !orb_true_iff, !Z.eqb_eq, !Z.leb_le. tauto.
Qed.

Lemma block_eqb_eq a b : block_eqb a b = true <-> a = b.
Proof.
  unfold block_eqb. destruct a as [p1 s1], b as [p2 s2]. cbn.
  rewrite andb_true_iff, !Z.eqb_eq. split.
  - intros [-> ->]. reflexivity.
  - intros H. inversion H. auto.
Qed.

Lemma sum_sizes_nonneg bs :
  Forall (fun b => 0 <= snd b) bs -> 0 <= sum_sizes bs.
Proof.
  induction 1 as [| b r Hb _ IH]; cbn; lia.
Qed.

Lemma sum_sizes_filter (f : block -> bool) bs :
  sum_sizes bs
  = sum_sizes (List.filter f bs) + sum_sizes (List.filter (fun b => negb (f b)) bs).
Proof.
  induction bs as [| b r IH]; cbn; [reflexivity |].
  destruct (f b); cbn; lia.
Qed.

Lemma pairwise_disjoint_filter (f : block -> bool) bs :
  pairwise_disjoint bs -> pairwise_disjoint (List.filter f bs).
Proof.
  induction bs as [| b r IH]; cbn; [trivial |].
  intros [Hb Hr]. destruct (f b); cbn; [split |]; auto.
  rewrite List.Forall_forall in *. intros x Hx.
  apply List.filter_In in Hx. apply Hb. tauto.
Qed.

(** Blocks of positive size that lie in [[lo, hi)] and are pairwise disjoint
    hold at most [hi - lo] bytes. *)
Lemma disjoint_blocks_fit (n : nat) :
  forall (bs : list block) (lo hi : Z),
    (length bs <= n)%nat ->
    lo <= hi ->
    (forall b, In b bs ->
               0 <= snd b /\ (0 < snd b -> lo <= fst b /\ fst b + snd b <= hi)) ->
    pairwise_disjoint bs ->
    sum_sizes bs <= hi - lo.
Proof.
  induction n as [| n IH]; intros bs lo hi Hlen Hle Hin Hdis.
  - destruct bs; [cbn; lia | cbn in Hlen; lia].
  - destruct bs as [| b r]; [cbn; lia |].
    cbn in Hlen. destruct Hdis as [Hb Hr].
    assert (Hrin : forall x, In x r ->
                0 <= snd x /\ (0 < snd x -> lo <= fst x /\ fst x + snd x <= hi))
      by (intros x Hx; apply Hin; right; exact Hx).
    destruct (Hin b (or_introl eq_refl)) as [Hb0 Hbr].
    destruct (Z.eq_dec (snd b) 0) as [Hz | Hnz].
    + cbn. rewrite Hz. cbn.
      apply (IH r lo hi); auto. lia.
    + assert (Hpos : 0 < snd b) by lia.
      destruct (Hbr Hpos) as [Hblo Hbhi].
      set (below := fun x : block => fst x <? fst b).
      rewrite List.Forall_forall in Hb.
      assert (Hlow : sum_sizes (List.filter below r) <= fst b - lo).
      { apply (IH _ lo (fst b)).
        - pose proof (List.filter_length_le below r). lia.
        - exact Hblo.
        - intros x Hx. apply List.filter_In in Hx. destruct Hx as [Hx Hbelow].
          unfold below in Hbelow. apply Z.ltb_lt in Hbelow.
          destruct (Hrin x Hx) as [Hx0 Hxr]. split; [exact Hx0 |].
          intros Hxpos. destruct (Hxr Hxpos) as [Hxlo Hxhi].
          specialize (Hb x Hx). apply disjoint_spec in Hb. lia.
        - apply pairwise_disjoint_filter. exact Hr. }
      assert (Hhigh : sum_sizes (List.filter (fun x => negb (below x)) r)
                      <= hi - (fst b + snd b)).
      { apply (IH _ (fst b + snd b) hi).
        - pose proof (List.filter_length_le (fun x => negb (below x)) r). lia.
        - exact Hbhi.
        - intros x Hx. apply List.filter_In in Hx. destruct Hx as [Hx Habove].
          unfold below in Habove. apply negb_true_iff, Z.ltb_ge in Habove.
          destruct (Hrin x Hx) as [Hx0 Hxr]. split; [exact Hx0 |].
          intros Hxpos. destruct (Hxr Hxpos) as [Hxlo Hxhi].
          specialize (Hb x Hx). apply disjoint_spec in Hb. lia.
        - apply pairwise_disjoint_filter. exact Hr. }
      cbn. rewrite (sum_sizes_filter below r). lia.
Qed.

(** The blocks outstanding on a device never hold [2^64] bytes or more. *)
Lemma outstanding_fits bs :
  Forall (fun b => addressable b = true) bs ->
  pairwise_disjoint bs ->
  sum_sizes bs < Word64.modulus.
Proof.
  intros Haddr Hdis.
  assert (H : sum_sizes bs <= Word64.modulus - 1).
  { apply (disjoint_blocks_fit (length bs)); auto.
    - rewrite modulus_eq. lia.
    - rewrite List.Forall_forall in Haddr. intros b Hb.
      specialize (Haddr b Hb). apply addressable_spec in Haddr. lia. }
  lia.
Qed.

Lemma remove_block_sum b bs :
  existsb (block_eqb b) bs = true ->
  sum_sizes bs = snd b + sum_sizes (remove_block b bs).
Proof.
  induction bs as [| x r IH]; cbn; [discriminate |].
  destruct (block_eqb b x) eqn:E.
  - intros _. apply block_eqb_eq in E. subst x. reflexivity.
  - cbn. intros H. rewrite (IH H). lia.
Qed.

Lemma remove_block_incl b bs x : In x (remove_block b bs) -> In x bs.
Proof.
  induction bs as [| y r IH]; cbn; [tauto |].
  destruct (block_eqb b y); cbn; tauto.
Qed.

Lemma remove_block_Forall (P : block -> Prop) b bs :
  Forall P bs -> Forall P (remove_block b bs).
Proof.
  rewrite !List.Forall_forall. intros H x Hx.
  apply H. apply (remove_block_incl b). exact Hx.
Qed.

Lemma remove_block_disjoint b bs :
  pairwise_disjoint bs -> pairwise_disjoint (remove_block b bs).
Proof.
  induction bs as [| y r IH]; cbn; [trivial |].
  intros [Hy Hr]. destruct (block_eqb b y); cbn; [exact Hr |].
  split; [apply remove_block_Forall; exact Hy | apply IH; exact Hr].
Qed.

(** ** The counter along a sequence of calls *)

Lemma accounted_start dev_id limit v :
  0 <= limit -> accounted limit (Run_start dev_id limit v).
Proof.
  intros Hl. split; cbn; auto.
Qed.

Lemma accounted_sizes limit r :
  accounted limit r -> Forall (fun b => 0 <= snd b) (outstanding r).
Proof.
  intros [_ _ Ha _ _]. rewrite List.Forall_forall in *.
  intros b Hb. specialize (Ha b Hb). apply addressable_spec in Ha. lia.
Qed.

Lemma over_limit_false_bound h size :
  over_limit h size = false ->
  limit_size_ h <> 0 ->
  Word64.add (cur_size_ h) size <= limit_size_ h.
Proof.
  unfold over_limit, NeedRecord. intros H Hl.
  apply Z.eqb_neq in Hl. rewrite Hl in H. cbn in H.
  apply Z.ltb_ge in H. exact H.
Qed.

Lemma step_Malloc_accounted testing limit r size managed answer :
  accounted limit r ->
  admissible_call (CallMalloc size managed answer) r = true ->
  exists r', step testing (CallMalloc size managed answer) r = Some r'
             /\ accounted limit r'.
Proof.
  intros Hacc Hadm.
  pose proof (accounted_sizes limit r Hacc) as Hsizes.
  destruct Hacc as [Hlim Hcur Haddr Hdis Hbound].
  destruct answer as [e p]. cbn [step].
  destruct (over_limit (this (state r)) size) eqn:Hover.
  - rewrite (Malloc_rejected testing (state r) size managed (e, p) Hover).
    eexists. split; [reflexivity |]. split; cbn; auto.
  - destruct e; cbn in Hadm; try discriminate.
    + pose proof (Malloc_native_success testing (state r) size managed p Hover)
        as (H1 & H2 & _ & (_ & H4 & _) & _).
      destruct (Malloc testing size managed (gpuSuccess, p) (state r))
        as [res s'] eqn:E.
      cbn in H1, H2, H4. subst res.
      eexists. split; [reflexivity |].
      apply andb_true_iff in Hadm. destruct Hadm as [Hadm Hfresh].
      apply andb_true_iff in Hadm. destruct Hadm as [Hsize Hblock].
      apply in_range_spec in Hsize.
      assert (Haddr' : Forall (fun b => addressable b = true)
                              ((p, size) :: outstanding r))
        by (constructor; assumption).
      assert (Hdis' : pairwise_disjoint ((p, size) :: outstanding r)).
      { cbn. split; [| exact Hdis].
        rewrite List.Forall_forall. intros x Hx.
        rewrite forallb_forall in Hfresh. apply Hfresh. exact Hx. }
      pose proof (outstanding_fits _ Haddr' Hdis') as Hfit. cbn in Hfit.
      pose proof (sum_sizes_nonneg _ Hsizes) as Hnn.
      assert (Hadd : Word64.add (cur_size_ (this (state r))) size
                     = size + sum_sizes (outstanding r)).
      { rewrite Hcur. rewrite add_no_carry; lia. }
      split; cbn; auto.
      * congruence.
      * congruence.
      * intros Hl. rewrite H2.
        rewrite <- Hlim. apply over_limit_false_bound; congruence.
    + pose proof (Malloc_native_out_of_memory testing (state r) size managed p Hover)
        as (H1 & H2 & _).
      destruct (Malloc testing size managed (gpuErrorOutOfMemory, p) (state r))
        as [res s'] eqn:E.
      cbn in H1, H2. subst res.
      eexists. split; [reflexivity |].
      split; cbn; rewrite ?H2; auto.
Qed.

Lemma step_Free_accounted testing limit r ptr size answer :
  accounted limit r ->
  admissible_call (CallFree ptr size answer) r = true ->
  exists r', step testing (CallFree ptr size answer) r = Some r'
             /\ accounted limit r'.
Proof.
  intros Hacc Hadm.
  pose proof (accounted_sizes limit r Hacc) as Hsizes.
  destruct Hacc as [Hlim Hcur Haddr Hdis Hbound].
  cbn [step]. destruct answer; cbn in Hadm; try discriminate.
  pose proof (Free_native_success testing (state r) ptr size)
    as (H1 & H2 & _ & (_ & H4 & _) & _).
  destruct (Free testing ptr size gpuSuccess (state r)) as [res s'] eqn:E.
  cbn in H1, H2, H4. subst res.
  eexists. split; [reflexivity |].
  pose proof (remove_block_sum (ptr, size) _ Hadm) as Hsum. cbn in Hsum.
  assert (Hsizes' : Forall (fun b => 0 <= snd b)
                           (remove_block (ptr, size) (outstanding r)))
    by (apply remove_block_Forall; exact Hsizes).
  pose proof (sum_sizes_nonneg _ Hsizes') as Hnn.
  pose proof (outstanding_fits _ Haddr Hdis) as Hfit.
  assert (Hin : 0 <= size).
  { apply existsb_exists in Hadm. destruct Hadm as (x & Hx & Hxe).
    apply block_eqb_eq in Hxe. subst x.
    rewrite List.Forall_forall in Hsizes. apply (Hsizes _ Hx). }
  assert (Hsub : Word64.sub (cur_size_ (this (state r))) size
                 = sum_sizes (remove_block (ptr, size) (outstanding r))).
  { rewrite sub_no_borrow; lia. }
  split; cbn.
  - congruence.
  - congruence.
  - apply remove_block_Forall. exact Haddr.
  - apply remove_block_disjoint. exact Hdis.
  - intros Hl. specialize (Hbound Hl). lia.
Qed.

Lemma run_accounted testing limit cs :
  forall r,
    accounted limit r ->
    admissible testing cs r = true ->
    exists r', run testing cs r = Some r' /\ accounted limit r'.
Proof.
  induction cs as [| c cs IH]; intros r Hacc Hadm.
  - exists r. split; [reflexivity | exact Hacc].
  - cbn in Hadm. apply andb_true_iff in Hadm. destruct Hadm as [Hc Hrest].
    assert (Hstep : exists r', step testing c r = Some r' /\ accounted limit r').
    { destruct c.
      - apply step_Malloc_accounted; assumption.
      - apply step_Free_accounted; assumption. }
    destruct Hstep as (r1 & Hr1 & Hacc1).
    cbn [run]. rewrite Hr1 in *. apply IH; assumption.
Qed.

(** C2.  On a helper with limit [L > 0], every admissible sequence of
    [Malloc] and [Free] calls runs to its end, and afterwards [cur_size_] is
    the sum of the sizes of the outstanding blocks and is at most [L]. *)
Theorem counter_is_outstanding_sum (testing : bool) (dev_id L : Z) (v : Env)
        (cs : list call) :
  0 < L ->
  admissible testing cs (Run_start dev_id L v) = true ->
  exists r, run testing cs (Run_start dev_id L v) = Some r
            /\ cur_size_ (this (state r)) = sum_sizes (outstanding r)
            /\ cur_size_ (this (state r)) <= L.
Proof.
  intros HL Hadm.
  destruct (run_accounted testing L cs (Run_start dev_id L v)) as (r & Hr & Hacc).
  - apply accounted_start. lia.
  - exact Hadm.
  - exists r. destruct Hacc as [_ Hcur _ _ Hbound].
    split; [exact Hr |]. split; [exact Hcur |]. apply Hbound. lia.
Qed.

Lemma counter_is_outstanding_sum_witness :
  exists r, run true scenario_A
                (Run_start 0 104857600 (mkEnv gpuSuccess 0 1 [] ∅)) = Some r
            /\ cur_size_ (this (state r)) = sum_sizes (outstanding r)
            /\ cur_size_ (this (state r)) <= 104857600.
Proof.
  apply counter_is_outstanding_sum; [lia | vm_compute; reflexivity].
Defined.

(** ** The address index and [GetBasePtr] *)

Lemma insert_In x y s : In y (PtrSet.insert x s) <-> y = x \/ In y s.
Proof.
  induction s as [| z s IH]; cbn.
  - intuition.
  - destruct (x <? z) eqn:E1; [cbn; intuition |].
    destruct (x =? z) eqn:E2.
    + apply Z.eqb_eq in E2. subst z. cbn. intuition.
    + cbn. rewrite IH. intuition.
Qed.

Lemma insert_sorted x s : PtrSet.sorted s -> PtrSet.sorted (PtrSet.insert x s).
Proof.
  induction s as [| z s IH]; cbn.
  - intros _. split; [constructor | exact I].
  - intros [Hz Hs].
    destruct (x <? z) eqn:E1.
    + apply Z.ltb_lt in E1. cbn. split; [| split; assumption].
      constructor; [exact E1 |].
      rewrite List.Forall_forall in *. intros y Hy. specialize (Hz y Hy). lia.
    + destruct (x =? z) eqn:E2; [cbn; split; assumption |].
      apply Z.ltb_ge in E1. apply Z.eqb_neq in E2.
      cbn. split; [| apply IH; exact Hs].
      rewrite List.Forall_forall in *. intros y Hy.
      apply insert_In in Hy. destruct Hy as [-> | Hy]; [lia | apply Hz; exact Hy].
Qed.

Lemma erase_incl x y s : In y (PtrSet.erase x s) -> In y s.
Proof.
  induction s as [| z s IH]; cbn; [tauto |].
  destruct (x =? z); cbn; tauto.
Qed.

Lemma erase_sorted x s : PtrSet.sorted s -> PtrSet.sorted (PtrSet.erase x s).
Proof.
  induction s as [| z s IH]; cbn; [trivial |].
  intros [Hz Hs]. destruct (x =? z); [exact Hs |].
  cbn. split; [| apply IH; exact Hs].
  rewrite List.Forall_forall in *. intros y Hy.
  apply Hz. apply (erase_incl x). exact Hy.
Qed.

Lemma upper_bound_begin ptr s :
  PtrSet.sorted s ->
  PtrSet.upper_bound ptr s = 0%nat ->
  forall q, In q s -> ptr < q.
Proof.
  destruct s as [| z s]; cbn; [tauto |].
  intros [Hz _]. destruct (ptr <? z) eqn:E; [| discriminate].
  apply Z.ltb_lt in E. intros _ q [<- | Hq]; [exact E |].
  rewrite List.Forall_forall in Hz. specialize (Hz q Hq). lia.
Qed.

Lemma upper_bound_pred ptr s :
  PtrSet.sorted s ->
  forall k,
    PtrSet.upper_bound ptr s = S k ->
    In (PtrSet.deref k s) s
    /\ PtrSet.deref k s <= ptr
    /\ forall q, In q s -> q <= ptr -> q <= PtrSet.deref k s.
Proof.
  unfold PtrSet.deref.
  induction s as [| z s IH]; cbn; [discriminate |].
  intros [Hz Hs] k. destruct (ptr <? z) eqn:E; [discriminate |].
  apply Z.ltb_ge in E. intros Hk. injection Hk as Hk.
  destruct k as [| k].
  - split; [left; reflexivity |]. split; [exact E |].
    intros q [<- | Hq] Hle; [lia |].
    pose proof (upper_bound_begin ptr s Hs Hk q Hq). lia.
  - destruct (IH Hs k Hk) as (Hin & Hle & Hmax).
    split; [right; exact Hin |]. split; [exact Hle |].
    intros q [<- | Hq] Hq'.
    + rewrite List.Forall_forall in Hz. specialize (Hz _ Hin). lia.
    + apply Hmax; assumption.
Qed.

Lemma base_of_spec ptr s :
  PtrSet.sorted s ->
  (In (base_of ptr s) s /\ base_of ptr s <= ptr
   /\ forall q, In q s -> q <= ptr -> q <= base_of ptr s)
  \/ (base_of ptr s = nullptr /\ forall q, In q s -> ptr < q).
Proof.
  intros Hs. unfold base_of, PtrSet.begin.
  destruct (PtrSet.upper_bound ptr s) as [| k] eqn:E; cbn.
  - right. split; [reflexivity |]. apply upper_bound_begin; assumption.
  - left. apply upper_bound_pred; assumption.
Qed.

Lemma base_of_recorded ptr s :
  PtrSet.sorted s -> In ptr s -> base_of ptr s = ptr.
Proof.
  intros Hs Hin.
  destruct (base_of_spec ptr s Hs) as [(Hb & Hle & Hmax) | (_ & Hnone)].
  - specialize (Hmax ptr Hin). lia.
  - specialize (Hnone ptr Hin). lia.
Qed.

Lemma GetBasePtr_testing ptr s :
  GetBasePtr true ptr s = (Ok (base_of ptr (gpu_ptrs (this s))), s).
Proof.
  unfold GetBasePtr, base_of. unfold_monad.
  destruct (PtrSet.upper_bound ptr (gpu_ptrs (this s)) =? _)%nat; reflexivity.
Qed.

Lemma Malloc_keeps_sorted testing size managed answer s :
  PtrSet.sorted (gpu_ptrs (this s)) ->
  PtrSet.sorted (gpu_ptrs (this (snd (Malloc testing size managed answer s)))).
Proof.
  intros Hs. destruct s as [h v]. destruct answer as [e p]. cbn in Hs.
  pose proof (insert_sorted p _ Hs) as Hi.
  unfold Malloc, RaiseNonOutOfMemoryError, CUDADeviceGuard. unfold_monad. cbn.
  destruct (NeedRecord h && _); cbn; [exact Hs |].
  destruct (current_device v =? dev_id_ h); destruct managed; destruct e;
    destruct testing; cbn; try assumption;
    destruct (last_error v); cbn; assumption.
Qed.

Lemma Free_keeps_sorted testing ptr size answer s :
  PtrSet.sorted (gpu_ptrs (this s)) ->
  PtrSet.sorted (gpu_ptrs (this (snd (Free testing ptr size answer s)))).
Proof.
  intros Hs. destruct s as [h v]. cbn in Hs.
  pose proof (erase_sorted ptr _ Hs) as He.
  unfold Free, CUDADeviceGuard. unfold_monad. cbn.
  destruct (current_device v =? dev_id_ h); destruct answer;
    destruct testing; cbn; assumption.
Qed.

Lemma run_keeps_sorted testing cs :
  forall r r',
    PtrSet.sorted (gpu_ptrs (this (state r))) ->
    run testing cs r = Some r' ->
    PtrSet.sorted (gpu_ptrs (this (state r'))).
Proof.
  induction cs as [| c cs IH]; intros r r' Hs Hrun; cbn in Hrun.
  - injection Hrun as <-. exact Hs.
  - destruct (step testing c r) as [r1 |] eqn:E; [| discriminate].
    apply (IH r1 r'); [| exact Hrun].
    destruct c as [size managed answer | ptr size answer]; unfold step in E.
    + pose proof (Malloc_keeps_sorted testing size managed answer (state r) Hs) as H.
      destruct (Malloc testing size managed answer (state r)) as [res s'].
      cbn in H.
      destruct res as [[st o] |]; [| cbn in E; discriminate].
      destruct st; try destruct o; cbn in E; inversion E; subst r1; exact H.
    + pose proof (Free_keeps_sorted testing ptr size answer (state r) Hs) as H.
      destruct (Free testing ptr size answer (state r)) as [res s'].
      cbn in H.
      destruct res; cbn in E; [| discriminate]. inversion E; subst r1. exact H.
Qed.

(** C7.  After any sequence of calls on a helper of a testing build,
    [GetBasePtr(ptr)] returns the largest recorded address that is at most
    [ptr], and the null address when every recorded address is above [ptr];
    on a recorded address it returns that address, and so it does on the
    address a successful [Malloc] has just returned.  In a build without
    testing [GetBasePtr] raises [Unimplemented] in every state. *)
Theorem GetBasePtr_predecessor (dev_id limit : Z) (v : Env) (cs : list call)
        (r : Run) (ptr : Z) :
  run true cs (Run_start dev_id limit v) = Some r ->
  let recorded := gpu_ptrs (this (state r)) in
  let out := GetBasePtr true ptr (state r) in
  ((exists b, fst out = Ok b /\ In b recorded /\ b <= ptr
              /\ forall q, In q recorded -> q <= ptr -> q <= b)
   \/ (fst out = Ok nullptr /\ forall q, In q recorded -> ptr < q))
  /\ (In ptr recorded -> fst out = Ok ptr)
  /\ (forall size managed p s',
         Malloc true size managed (gpuSuccess, p) (state r)
         = (Ok (gpuSuccess, Some p), s') ->
         fst (GetBasePtr true p s') = Ok p)
  /\ (forall s, fst (GetBasePtr false ptr s) = Throw Unimplemented).
Proof.
  intros Hrun. cbn zeta.
  assert (Hs : PtrSet.sorted (gpu_ptrs (this (state r)))).
  { apply (run_keeps_sorted true cs (Run_start dev_id limit v) r); [exact I | exact Hrun]. }
  rewrite GetBasePtr_testing. cbn [fst].
  split; [| split; [| split]].
  - destruct (base_of_spec ptr _ Hs) as [(Hin & Hle & Hmax) | (Hnull & Hnone)].
    + left. eexists. split; [reflexivity |]. auto.
    + right. rewrite Hnull. auto.
  - intros Hin. rewrite base_of_recorded; auto.
  - intros size managed p s' HM.
    rewrite GetBasePtr_testing. cbn [fst].
    pose proof (Malloc_keeps_sorted true size managed (gpuSuccess, p) (state r) Hs)
      as Hs'.
    rewrite HM in Hs'. cbn in Hs'.
    rewrite base_of_recorded; [reflexivity | exact Hs' |].
    destruct (over_limit (this (state r)) size) eqn:Hover.
    + rewrite (Malloc_rejected true _ size managed (gpuSuccess, p) Hover) in HM.
      discriminate.
    + pose proof (Malloc_native_success true (state r) size managed p Hover)
        as (_ & _ & H3 & _).
      rewrite HM in H3. cbn in H3. rewrite H3.
      apply insert_In. left. reflexivity.
  - intros s. reflexivity.
Qed.

Lemma GetBasePtr_predecessor_witness :
  exists r,
    run true [CallMalloc 4096 false (gpuSuccess, 65536);
              CallMalloc 4096 false (gpuSuccess, 131072)]
        (Run_start 0 0 (mkEnv gpuSuccess 0 1 [] ∅)) = Some r
    /\ fst (GetBasePtr true 131072 (state r)) = Ok 131072.
Proof.
  eexists. split; [vm_compute; reflexivity |].
  refine (proj1 (proj2 (GetBasePtr_predecessor 0 0 (mkEnv gpuSuccess 0 1 [] ∅)
                          [CallMalloc 4096 false (gpuSuccess, 65536);
                           CallMalloc 4096 false (gpuSuccess, 131072)]
                          _ 131072 _)) _).
  - vm_compute. reflexivity.
  - vm_compute. right. left. reflexivity.
Defined.

(** The round trip of the specification: two blocks at [65536] and [131072];
    an address between the two blocks gives the lower base, an address below
    both gives the null address. *)
Example GetBasePtr_round_trip :
  let s := mkSt (mkHelper 0 0 8192 false [65536; 131072])
                (mkEnv gpuSuccess 0 1 [] ∅) in
  fst (GetBasePtr true 65536 s) = Ok 65536
  /\ fst (GetBasePtr true 100000 s) = Ok 65536
  /\ fst (GetBasePtr true 200000 s) = Ok 131072
  /\ fst (GetBasePtr true 4096 s) = Ok nullptr.
Proof. vm_compute. repeat split. Qed.

(** ** The registry *)

Lemma World_start_ok v : World_ok (World_start v).
Proof. reflexivity. Qed.

Section Registry.

Variable FLAGS_gpu_memory_limit_mb : Z.
Variable FLAGS_enable_gpu_memory_usage_log : bool.

Local Abbreviation emplace :=
  (emplace_instances FLAGS_gpu_memory_limit_mb FLAGS_enable_gpu_memory_usage_log).
Local Abbreviation init :=
  (call_once_init FLAGS_gpu_memory_limit_mb FLAGS_enable_gpu_memory_usage_log).


Lemma emplace_instances_spec (n : nat) :
  forall (i : Z) (w : World),
    i = Z.of_nat (length (instances_ w)) ->
    (forall (j : nat) h, instances_ w !! j = Some h -> dev_id_ h = Z.of_nat j) ->
    let w' := emplace n i w in
    length (instances_ w') = (length (instances_ w) + n)%nat
    /\ (forall (j : nat) h, instances_ w' !! j = Some h -> dev_id_ h = Z.of_nat j)
    /\ calls (wenv w') = calls (wenv w)
    /\ last_error (wenv w') = last_error (wenv w)
    /\ device_count (wenv w') = device_count (wenv w)
    /\ once_flag_ w' = once_flag_ w.
Proof.
  induction n as [| n IH]; intros i w Hi Hids; cbn zeta.
  - cbn. rewrite Nat.add_0_r. repeat split; auto.
  - cbn [emplace_instances].
    unfold RecordedGpuMallocHelper_new.
    match goal with
    | |- context [emplace_instances _ _ n (i + 1) ?w1] => set (w1' := w1)
    end.
    assert (Hlen1 : length (instances_ w1') = S (length (instances_ w)))
      by (cbn; rewrite length_app; cbn; lia).
    destruct (IH (i + 1) w1') as (H1 & H2 & H3 & H4 & H5 & H6).
    + rewrite Hlen1. lia.
    + intros j h. cbn [instances_ w1'].
      destruct (Nat.lt_ge_cases j (length (instances_ w))) as [Hlt | Hge].
      * rewrite lookup_app_l by exact Hlt. apply Hids.
      * rewrite lookup_app_r by exact Hge.
        destruct (j - length (instances_ w))%nat as [| k] eqn:Ek; cbn.
        -- intros [= <-]. cbn. lia.
        -- intros Hk. try rewrite lookup_nil in Hk. discriminate.
    + rewrite H1, Hlen1. split; [lia |]. split; [exact H2 |].
      rewrite H3, H4, H5, H6. subst w1'. cbn.
      destruct FLAGS_enable_gpu_memory_usage_log; cbn; repeat split; auto.
Qed.

Lemma call_once_init_ok w :
  World_ok w ->
  let w' := init w in
  World_ok w'
  /\ once_flag_ w' = true
  /\ calls (wenv w') = calls (wenv w)
  /\ last_error (wenv w') = last_error (wenv w)
  /\ device_count (wenv w') = device_count (wenv w).
Proof.
  unfold World_ok, call_once_init, GetGPUDeviceCount.
  destruct (once_flag_ w) eqn:Eonce; cbn zeta.
  - rewrite Eonce. repeat split; tauto.
  - intros Hnil. cbn.
    destruct (emplace_instances_spec (Z.to_nat (device_count (wenv w))) 0 w)
      as (H1 & H2 & H3 & H4 & H5 & _).
    + rewrite Hnil. reflexivity.
    + rewrite Hnil. intros j h Hj. rewrite lookup_nil in Hj. discriminate.
    + rewrite H1, H5, Hnil. cbn. repeat split; auto.
Qed.

Lemma Instance_out_of_range dev_id w :
  World_ok w ->
  dev_id < 0 \/ device_count (wenv w) <= dev_id ->
  Instance FLAGS_gpu_memory_limit_mb FLAGS_enable_gpu_memory_usage_log dev_id w
  = (Throw OutOfRange, init w).
Proof.
  intros Hok Hrange.
  destruct (call_once_init_ok w Hok) as (Hok' & Honce & _ & _ & Hcnt).
  unfold Instance. unfold_monad.
  unfold World_ok in Hok'. rewrite Honce in Hok'. destruct Hok' as [Hlen _].
  destruct (0 <=? dev_id) eqn:E0; cbn; [| reflexivity].
  apply Z.leb_le in E0.
  destruct (dev_id <? Z.of_nat (length (instances_ (init w)))) eqn:E1;
    cbn; [| reflexivity].
  apply Z.ltb_lt in E1. rewrite Hlen, Hcnt in E1. lia.
Qed.

Lemma Instance_in_range dev_id w :
  World_ok w ->
  0 <= dev_id < device_count (wenv w) ->
  Instance FLAGS_gpu_memory_limit_mb FLAGS_enable_gpu_memory_usage_log dev_id w
  = (Ok (Z.to_nat dev_id), init w)
  /\ exists h, instances_ (init w) !! Z.to_nat dev_id = Some h
               /\ dev_id_ h = dev_id.
Proof.
  intros Hok Hrange.
  destruct (call_once_init_ok w Hok) as (Hok' & Honce & _ & _ & Hcnt).
  unfold World_ok in Hok'. rewrite Honce in Hok'. destruct Hok' as [Hlen Hids].
  assert (Hlt : (Z.to_nat dev_id < length (instances_ (init w)))%nat)
    by (rewrite Hlen, Hcnt; lia).
  split.
  - unfold Instance. unfold_monad.
    destruct (0 <=? dev_id) eqn:E0; cbn; [| apply Z.leb_gt in E0; lia].
    destruct (dev_id <? Z.of_nat (length (instances_ (init w)))) eqn:E1;
      cbn; [reflexivity |].
    apply Z.ltb_ge in E1. lia.
  - destruct (lookup_lt_is_Some_2 _ _ Hlt) as [h Hh].
    exists h. split; [exact Hh |]. rewrite (Hids _ _ Hh). lia.
Qed.

End Registry.

(** C8.  [Instance(dev_id)] with [dev_id < 0] or [dev_id >= device_count]
    raises [OutOfRange]; it logs no native call, it leaves an initialised
    table as it is, and [RecordedGpuMalloc] and [RecordedGpuFree] with such
    an ordinal raise the same error in the same state, before any member
    function runs.  With [0 <= dev_id < device_count] it returns the helper
    constructed for that ordinal. *)
Theorem Instance_bounds_checked (testing : bool) (limit_mb : Z) (usage_log : bool)
        (w : World) (dev_id : Z) :
  World_ok w ->
  let out := Instance limit_mb usage_log dev_id w in
  (dev_id < 0 \/ device_count (wenv w) <= dev_id ->
   fst out = Throw OutOfRange
   /\ calls (wenv (snd out)) = calls (wenv w)
   /\ (once_flag_ w = true -> snd out = w)
   /\ (forall size managed answer,
          RecordedGpuMalloc testing limit_mb usage_log size dev_id managed answer w
          = (Throw OutOfRange, snd out))
   /\ (forall p size answer,
          RecordedGpuFree testing limit_mb usage_log p size dev_id answer w
          = (Throw OutOfRange, snd out)))
  /\ (0 <= dev_id < device_count (wenv w) ->
      exists i h, fst out = Ok i
                  /\ instances_ (snd out) !! i = Some h
                  /\ dev_id_ h = dev_id).
Proof.
  intros Hok. cbn zeta. split.
  - intros Hrange.
    pose proof (Instance_out_of_range limit_mb usage_log dev_id w Hok Hrange) as HI.
    destruct (call_once_init_ok limit_mb usage_log w Hok) as (_ & _ & Hcalls & _).
    unfold RecordedGpuMalloc, RecordedGpuFree, bind.
    rewrite HI. cbn [fst snd].
    repeat split; auto.
    intros Honce. unfold call_once_init. rewrite Honce. reflexivity.
  - intros Hrange.
    destruct (Instance_in_range limit_mb usage_log dev_id w Hok Hrange)
      as (HI & h & Hh & Hid).
    rewrite HI. cbn [fst snd]. exists (Z.to_nat dev_id), h. auto.
Qed.

Lemma Instance_bounds_checked_witness :
  fst (Instance 100 false (-1) (World_start (mkEnv gpuSuccess 0 2 [] ∅)))
  = Throw OutOfRange
  /\ fst (Instance 100 false 2 (World_start (mkEnv gpuSuccess 0 2 [] ∅)))
     = Throw OutOfRange
  /\ exists i h,
      fst (Instance 100 false 1 (World_start (mkEnv gpuSuccess 0 2 [] ∅))) = Ok i
      /\ instances_ (snd (Instance 100 false 1
                            (World_start (mkEnv gpuSuccess 0 2 [] ∅)))) !! i = Some h
      /\ dev_id_ h = 1.
Proof.
  split; [| split].
  - apply (proj1 (Instance_bounds_checked true 100 false _ (-1)
                    (World_start_ok (mkEnv gpuSuccess 0 2 [] ∅)))).
    left. lia.
  - apply (proj1 (Instance_bounds_checked true 100 false _ 2
                    (World_start_ok (mkEnv gpuSuccess 0 2 [] ∅)))).
    right. cbn. lia.
  - apply (proj2 (Instance_bounds_checked true 100 false _ 1
                    (World_start_ok (mkEnv gpuSuccess 0 2 [] ∅)))).
    cbn. lia.
Defined.

(** ** The counter without a limit *)

Lemma read_instance_spec {A} (i : nat) (f : RecordedGpuMallocHelper -> A)
      (w : World) (h : RecordedGpuMallocHelper) :
  instances_ w !! i = Some h ->
  read_instance i f w = (Ok (f h), w).
Proof.
  intros Hh. unfold read_instance, at_instance. unfold_monad. rewrite Hh. cbn.
  rewrite list_insert_id by exact Hh. destruct w; reflexivity.
Qed.

Lemma wrappers_read_helper (limit_mb : Z) (usage_log : bool) (w : World) (dev_id : Z) :
  World_ok w -> once_flag_ w = true ->
  0 <= dev_id < device_count (wenv w) ->
  exists h, instances_ w !! Z.to_nat dev_id = Some h
            /\ dev_id_ h = dev_id
            /\ RecordedGpuMallocSize limit_mb usage_log dev_id w
               = (Ok (RecordedSize h), w)
            /\ RecordedGpuLimitSize limit_mb usage_log dev_id w
               = (Ok (LimitSize h), w)
            /\ IsGpuMallocRecorded limit_mb usage_log dev_id w
               = (Ok (NeedRecord h), w).
Proof.
  intros Hok Honce Hrange.
  destruct (Instance_in_range limit_mb usage_log dev_id w Hok Hrange)
    as (HI & h & Hh & Hid).
  assert (Hinit : call_once_init limit_mb usage_log w = w)
    by (unfold call_once_init; rewrite Honce; reflexivity).
  rewrite Hinit in HI, Hh.
  exists h. split; [exact Hh |]. split; [exact Hid |].
  unfold RecordedGpuMallocSize, RecordedGpuLimitSize, IsGpuMallocRecorded, bind.
  rewrite HI. rewrite !(read_instance_spec _ _ w h Hh). auto.
Qed.

(** C9.  With [limit_size_ = 0] recording is off, and still a successful
    [Malloc] adds [size] to [cur_size_] and a successful [Free] subtracts it;
    so along every admissible sequence of calls [RecordedSize] is the sum of
    the sizes of the outstanding blocks while [NeedRecord] is [false].
    [RecordedGpuMallocSize] and [IsGpuMallocRecorded] return these two
    values of the helper of the device. *)
Theorem counter_without_limit (testing : bool) :
  (forall s size managed p,
      limit_size_ (this s) = 0 ->
      let out := Malloc testing size managed (gpuSuccess, p) s in
      fst out = Ok (gpuSuccess, Some p)
      /\ RecordedSize (this (snd out)) = Word64.add (RecordedSize (this s)) size
      /\ NeedRecord (this (snd out)) = false)
  /\ (forall s ptr size,
         limit_size_ (this s) = 0 ->
         let out := Free testing ptr size gpuSuccess s in
         fst out = Ok tt
         /\ RecordedSize (this (snd out)) = Word64.sub (RecordedSize (this s)) size
         /\ NeedRecord (this (snd out)) = false)
  /\ (forall dev_id v cs,
         admissible testing cs (Run_start dev_id 0 v) = true ->
         exists r, run testing cs (Run_start dev_id 0 v) = Some r
                   /\ NeedRecord (this (state r)) = false
                   /\ RecordedSize (this (state r)) = sum_sizes (outstanding r))
  /\ (forall limit_mb usage_log w dev_id,
         World_ok w -> once_flag_ w = true ->
         0 <= dev_id < device_count (wenv w) ->
         exists h, instances_ w !! Z.to_nat dev_id = Some h
                   /\ RecordedGpuMallocSize limit_mb usage_log dev_id w
                      = (Ok (RecordedSize h), w)
                   /\ IsGpuMallocRecorded limit_mb usage_log dev_id w
                      = (Ok (NeedRecord h), w)).
Proof.
  split; [| split; [| split]].
  - intros s size managed p Hl. cbn zeta.
    assert (Hover : over_limit (this s) size = false)
      by (unfold over_limit, NeedRecord; rewrite Hl; reflexivity).
    pose proof (Malloc_native_success testing s size managed p Hover)
      as (H1 & H2 & _ & (_ & H4 & _) & _).
    unfold RecordedSize, NeedRecord. rewrite H4, Hl. auto.
  - intros s ptr size Hl. cbn zeta.
    pose proof (Free_native_success testing s ptr size)
      as (H1 & H2 & _ & (_ & H4 & _) & _).
    unfold RecordedSize, NeedRecord. rewrite H4, Hl. auto.
  - intros dev_id v cs Hadm.
    destruct (run_accounted testing 0 cs (Run_start dev_id 0 v)) as (r & Hr & Hacc).
    + apply accounted_start. lia.
    + exact Hadm.
    + exists r. destruct Hacc as [Hlim Hcur _ _ _].
      unfold RecordedSize, NeedRecord. rewrite Hlim. auto.
  - intros limit_mb usage_log w dev_id Hok Honce Hrange.
    destruct (wrappers_read_helper limit_mb usage_log w dev_id Hok Honce Hrange)
      as (h & Hh & _ & H1 & _ & H3).
    exists h. auto.
Qed.

Lemma counter_without_limit_witness :
  exists r, run true [CallMalloc 4096 false (gpuSuccess, 65536);
                      CallMalloc 8192 true (gpuSuccess, 131072);
                      CallFree 65536 4096 gpuSuccess]
                (Run_start 0 0 (mkEnv gpuSuccess 0 1 [] ∅)) = Some r
            /\ NeedRecord (this (state r)) = false
            /\ RecordedSize (this (state r)) = sum_sizes (outstanding r).
Proof.
  apply (proj1 (proj2 (proj2 (counter_without_limit true)))).
  vm_compute. reflexivity.
Defined.

(** Scenario B of the specification: with no limit, a request the device
    cannot serve is refused by the native allocation, not by the limit
    test. *)
Example scenario_B :
  let s := mkSt (mkHelper 0 0 0 false []) (mkEnv gpuSuccess 0 1 [] ∅) in
  let out := Malloc false 10737418240 false (gpuErrorOutOfMemory, 0) s in
  over_limit (this s) 10737418240 = false
  /\ fst out = Ok (gpuErrorOutOfMemory, None)
  /\ calls (env (snd out)) = [cudaGetLastError; cudaMalloc 10737418240]
  /\ cur_size_ (this (snd out)) = 0.
Proof. vm_compute. repeat split. Qed.

(** ** [GetMemInfo] when the counter is above the limit *)

(** C10, as amended.  With recording enabled and [cur_size_] above
    [limit_size_], the [uint64_t] difference [limit_size_ - cur_size_] is
    [2^64 - (cur_size_ - limit_size_)], and the reported [avail] is the
    minimum of that value and the actual available memory: it is the actual
    available memory whenever that is at most
    [2^64 - (cur_size_ - limit_size_)], and it is not 0 unless the actual
    available memory is. *)
Theorem GetMemInfo_wrapped_difference (s : St) (status : gpuError_t) (a t : Z) :
  query_passes status s ->
  0 < limit_size_ (this s) < cur_size_ (this s) ->
  cur_size_ (this s) < Word64.modulus ->
  let wrapped := Word64.modulus - (cur_size_ (this s) - limit_size_ (this s)) in
  exists flag info,
    fst (GetMemInfo (status, (a, t)) s) = Ok (flag, info)
    /\ Word64.sub (limit_size_ (this s)) (cur_size_ (this s)) = wrapped
    /\ actual_avail info = actual_avail_after status a
    /\ avail info = Z.min (actual_avail info) wrapped
    /\ (actual_avail info <= wrapped -> avail info = actual_avail info)
    /\ (0 < actual_avail info -> 0 < avail info).
Proof.
  intros Hq Hlim Hcur. cbn zeta.
  pose proof (GetMemInfo_returns s status a t Hq) as (H & _).
  cbn zeta in H. rewrite H.
  assert (Hneed : NeedRecord (this s) = true).
  { unfold NeedRecord. apply negb_true_iff, Z.eqb_neq. lia. }
  rewrite Hneed.
  assert (Hsub : Word64.sub (limit_size_ (this s)) (cur_size_ (this s))
                 = Word64.modulus - (cur_size_ (this s) - limit_size_ (this s))).
  { rewrite sub_borrow; lia. }
  eexists. eexists. split; [reflexivity |]. cbn.
  rewrite Hsub. repeat split; auto; lia.
Qed.

Lemma GetMemInfo_wrapped_difference_witness :
  exists flag info,
    fst (GetMemInfo (gpuSuccess, (1073741824, 8589934592))
           (mkSt (mkHelper 0 1048576 2097152 true [])
                 (mkEnv gpuSuccess 0 1 [] ∅)))
    = Ok (flag, info)
    /\ actual_avail info = 1073741824
    /\ avail info = actual_avail info.
Proof.
  destruct (GetMemInfo_wrapped_difference
              (mkSt (mkHelper 0 1048576 2097152 true [])
                    (mkEnv gpuSuccess 0 1 [] ∅))
              gpuSuccess 1073741824 8589934592)
    as (flag & info & H1 & _ & H3 & _ & H5 & _).
  - left. split; [reflexivity | left; reflexivity].
  - cbn. lia.
  - cbn. reflexivity.
  - exists flag, info. split; [exact H1 |]. split; [exact H3 |].
    apply H5. rewrite H3. cbn. rewrite modulus_eq. lia.
Defined.

(** [MemCreate] makes no limit test: a successful driver call adds [size]
    to the counter whatever the limit is. *)
Lemma MemCreate_adds (s : St) (size : Z) :
  let out := MemCreate size CUDA_SUCCESS s in
  fst out = Ok CUDA_SUCCESS
  /\ cur_size_ (this (snd out)) = Word64.add (cur_size_ (this s)) size
  /\ limit_size_ (this (snd out)) = limit_size_ (this s).
Proof.
  destruct s as [h v]. unfold MemCreate. unfold_monad. cbn. auto.
Qed.

(** So the counter can be brought above the limit. *)
Example MemCreate_over_limit :
  let s := mkSt (mkHelper 0 1048576 0 true []) (mkEnv gpuSuccess 0 1 [] ∅) in
  let out := MemCreate 2097152 CUDA_SUCCESS s in
  fst out = Ok CUDA_SUCCESS
  /\ cur_size_ (this (snd out)) = 2097152
  /\ limit_size_ (this (snd out)) < cur_size_ (this (snd out)).
Proof. vm_compute. repeat split. Qed.

(** A [Free] with a size above the counter wraps the counter to the top of
    the 64-bit range. *)
Example Free_wraps_counter :
  option_map (fun r => cur_size_ (this (state r)))
             (run false [CallMalloc 1 false (gpuSuccess, 4096);
                         CallFree 4096 2 gpuSuccess]
                  (Run_start 0 1048576 (mkEnv gpuSuccess 0 1 [] ∅)))
  = Some 18446744073709551615.
Proof. vm_compute. reflexivity. Qed.

(** C10 as stated fails: with the counter at [2^64 - 1] and the limit at 1 MB
    the wrapped difference is [1048577], below the 1 GB the driver reports
    as available, and [avail] is the wrapped difference. *)
Lemma GetMemInfo_available_below_actual :
  let s := mkSt (mkHelper 0 1048576 18446744073709551615 true [])
                (mkEnv gpuSuccess 0 1 [] ∅) in
  limit_size_ (this s) <> 0
  /\ limit_size_ (this s) < cur_size_ (this s)
  /\ fst (GetMemInfo (gpuSuccess, (1073741824, 8589934592)) s)
     = Ok (true, mkMemInfo 1048577 1048576 1073741824 8589934592)
  /\ avail (mkMemInfo 1048577 1048576 1073741824 8589934592)
     <> actual_avail (mkMemInfo 1048577 1048576 1073741824 8589934592).
Proof.
  cbn zeta. split; [cbn; discriminate |]. split; [cbn; reflexivity |].
  split; [vm_compute; reflexivity | cbn; discriminate].
Qed.

(** ** [double] conversions of sizes

    The override branch of [GpuAllocSize] passes through [double]; the
    lemmas below show that nothing is lost on the way. *)

Lemma digits2_pos_xO_iter (n : nat) (q : positive) :
  Zpos (digits2_pos (Nat.iter n xO q)) = Zpos (digits2_pos q) + Z.of_nat n.
Proof.
  induction n as [| n IH].
  - change (Nat.iter 0 xO q) with q. lia.
  - rewrite Nat.iter_succ. cbn [digits2_pos]. rewrite Pos2Z.inj_succ, IH. lia.
Qed.

Lemma Zpos_xO_iter (n : nat) (q : positive) :
  Zpos (Nat.iter n xO q) = Zpos q * 2 ^ Z.of_nat n.
Proof.
  induction n as [| n IH].
  - change (Nat.iter 0 xO q) with q. cbn. lia.
  - rewrite Nat2Z.inj_succ, Z.pow_succ_r by lia.
    rewrite Nat.iter_succ. rewrite (Pos2Z.inj_xO (Nat.iter n xO q)), IH. lia.
Qed.

Lemma Pos_iter_nat {A} (f : A -> A) (s : positive) (x : A) :
  Pos.iter f x s = Nat.iter (Pos.to_nat s) f x.
Proof. apply Pos2Nat.inj_iter. Qed.

Lemma iter_pos_nat {A} (f : A -> A) (s : positive) :
  forall x, SpecFloat.iter_pos f s x = Nat.iter (Pos.to_nat s) f x.
Proof.
  induction s as [s IH | s IH |]; intros x; cbn [SpecFloat.iter_pos].
  - rewrite !IH. rewrite Pos2Nat.inj_xI.
    rewrite <- Nat.iter_add. rewrite <- Nat.iter_succ_r.
    f_equal. lia.
  - rewrite !IH. rewrite Pos2Nat.inj_xO.
    rewrite <- Nat.iter_add. f_equal. lia.
  - reflexivity.
Qed.

Lemma shr_1_iter (n : nat) (q : positive) :
  Nat.iter n shr_1 (Build_shr_record (Zpos (Nat.iter n xO q)) false false)
  = Build_shr_record (Zpos q) false false.
Proof.
  induction n as [| n IH]; [reflexivity |].
  rewrite Nat.iter_succ_r. rewrite Nat.iter_succ. cbn [shr_1 orb]. exact IH.
Qed.

Lemma digits2_pos_bounds (p : positive) :
  2 ^ (Zpos (digits2_pos p) - 1) <= Zpos p < 2 ^ Zpos (digits2_pos p).
Proof.
  induction p as [p IH | p IH |]; cbn [digits2_pos].
  - rewrite Pos2Z.inj_succ, (Pos2Z.inj_xI p).
    replace (Z.succ (Zpos (digits2_pos p)) - 1)
      with (Z.succ (Zpos (digits2_pos p) - 1)) by lia.
    rewrite !Z.pow_succ_r by lia.
    set (lo := 2 ^ (Zpos (digits2_pos p) - 1)) in *.
    set (hi := 2 ^ Zpos (digits2_pos p)) in *. clearbody lo hi. lia.
  - rewrite Pos2Z.inj_succ, (Pos2Z.inj_xO p).
    replace (Z.succ (Zpos (digits2_pos p)) - 1)
      with (Z.succ (Zpos (digits2_pos p) - 1)) by lia.
    rewrite !Z.pow_succ_r by lia.
    set (lo := 2 ^ (Zpos (digits2_pos p) - 1)) in *.
    set (hi := 2 ^ Zpos (digits2_pos p)) in *. clearbody lo hi. lia.
  - cbn. lia.
Qed.

Lemma fexp_double (e : Z) : -1021 <= e -> fexp Double.prec Double.emax e = e - 53.
Proof.
  intros H. unfold fexp, emin, Double.prec, Double.emax. lia.
Qed.

(** Rounding a mantissa of exactly 53 digits leaves it as it is. *)
Lemma shr_fexp_canonical (m : positive) (e : Z) :
  Zpos (digits2_pos m) = 53 -> -1074 <= e ->
  shr_fexp Double.prec Double.emax (Zpos m) e loc_Exact
  = (Build_shr_record (Zpos m) false false, e).
Proof.
  intros Hd He. unfold shr_fexp. cbn [Zdigits2 shr_record_of_loc].
  rewrite Hd, fexp_double by lia.
  replace (53 + e - 53 - e) with 0 by lia. reflexivity.
Qed.

Lemma binary_round_aux_canonical (m : positive) (e : Z) :
  Zpos (digits2_pos m) = 53 -> -1074 <= e <= 971 ->
  binary_round_aux Double.prec Double.emax false (Zpos m) e loc_Exact
  = S754_finite false m e.
Proof.
  intros Hd He. unfold binary_round_aux.
  rewrite shr_fexp_canonical by (assumption || lia).
  cbn [shr_m loc_of_shr_record round_nearest_even].
  rewrite shr_fexp_canonical by (assumption || lia).
  cbn [shr_m].
  replace (e <=? Double.emax - Double.prec) with true; [reflexivity |].
  symmetry. apply Z.leb_le. unfold Double.emax, Double.prec. lia.
Qed.

(** A size of at most 53 digits: the mantissa is the size shifted left. *)
Lemma of_size_t_short (p : positive) :
  let d := Zpos (digits2_pos p) in
  d <= 53 ->
  Double.of_size_t (Zpos p)
  = S754_finite false (Nat.iter (Z.to_nat (53 - d)) xO p) (d - 53).
Proof.
  intros d Hd. unfold Double.of_size_t, binary_normalize, binary_round.
  rewrite fexp_double by lia. fold d.
  unfold shl_align.
  assert (Hdig : forall n, Z.of_nat n = 53 - d ->
                 Zpos (digits2_pos (Nat.iter n xO p)) = 53)
    by (intros n Hn; rewrite digits2_pos_xO_iter; fold d; lia).
  destruct (d + 0 - 53 - 0) as [| s | s] eqn:E.
  - replace (Z.to_nat (53 - d)) with 0%nat by lia.
    change (Nat.iter 0 xO p) with p.
    replace (d - 53) with 0 by lia.
    apply binary_round_aux_canonical; [fold d; lia | lia].
  - lia.
  - rewrite Pos_iter_nat.
    replace (Z.to_nat (53 - d)) with (Pos.to_nat s) by lia.
    replace (d + 0 - 53) with (d - 53) by lia.
    apply binary_round_aux_canonical; [apply Hdig; lia | lia].
Qed.

(** A size of more than 53 digits whose low digits are zero: the low digits
    are dropped and counted in the exponent. *)
Lemma of_size_t_long (q : positive) (n : nat) :
  Zpos (digits2_pos q) = 53 -> (0 < n <= 11)%nat ->
  Double.of_size_t (Zpos (Nat.iter n xO q)) = S754_finite false q (Z.of_nat n).
Proof.
  intros Hq Hn. unfold Double.of_size_t, binary_normalize, binary_round.
  pose proof (digits2_pos_xO_iter n q) as Hd. rewrite Hq in Hd.
  rewrite Hd. rewrite fexp_double by lia.
  unfold shl_align.
  destruct (53 + Z.of_nat n + 0 - 53 - 0) as [| s | s] eqn:E; try lia.
  unfold binary_round_aux.
  unfold shr_fexp at 1. cbn [Zdigits2 shr_record_of_loc].
  rewrite Hd, fexp_double by lia.
  replace (53 + Z.of_nat n + 0 - 53 - 0) with (Zpos s) by lia.
  unfold shr. rewrite iter_pos_nat.
  replace (Pos.to_nat s) with n by lia.
  rewrite shr_1_iter.
  cbn [shr_m loc_of_shr_record round_nearest_even].
  rewrite shr_fexp_canonical by (assumption || lia).
  cbn [shr_m].
  replace (0 + Zpos s) with (Z.of_nat n) by lia.
  replace (Z.of_nat n <=? Double.emax - Double.prec) with true; [reflexivity |].
  symmetry. apply Z.leb_le. unfold Double.emax, Double.prec. lia.
Qed.

(** A [size_t] value whose 11 low bits are zero is a [double]: converting it
    to [double] and back gives the value again. *)
Lemma size_t_double_round_trip (z : Z) :
  0 <= z < Word64.modulus -> (2 ^ 11 | z) ->
  Double.to_size_t (Double.of_size_t z) = Some z.
Proof.
  intros Hz Hdiv.
  destruct z as [| p | p]; [reflexivity | | lia].
  pose proof (digits2_pos_bounds p) as Hdig.
  set (d := Zpos (digits2_pos p)) in *.
  assert (Hd : 0 < d <= 64).
  { split; [subst d; lia |].
    destruct (Z.le_gt_cases d 64) as [H | H]; [exact H |].
    assert (Hp : 2 ^ 64 <= 2 ^ (d - 1)) by (apply Z.pow_le_mono_r; lia).
    unfold Word64.modulus in Hz.
    set (x := 2 ^ (d - 1)) in *. set (y := 2 ^ 64) in *. clearbody x y. lia. }
  destruct (Z.le_gt_cases d 53) as [Hshort | Hlong].
  - rewrite (of_size_t_short p Hshort). fold d.
    unfold Double.to_size_t.
    set (n := Z.to_nat (53 - d)).
    assert (Hm : Zpos (Nat.iter n xO p) = Zpos p * 2 ^ (53 - d)).
    { rewrite Zpos_xO_iter. subst n. rewrite Z2Nat.id by lia. reflexivity. }
    rewrite Hm.
    destruct (0 <=? d - 53) eqn:E.
    + apply Z.leb_le in E. replace (53 - d) with 0 by lia.
      replace (d - 53) with 0 by lia.
      rewrite Z.pow_0_r, !Z.mul_1_r.
      replace (Zpos p <? Word64.modulus) with true
        by (symmetry; apply Z.ltb_lt; lia).
      reflexivity.
    + replace (- (d - 53)) with (53 - d) by lia.
      rewrite Z.div_mul by (apply Z.pow_nonzero; lia).
      replace (Zpos p <? Word64.modulus) with true
        by (symmetry; apply Z.ltb_lt; lia).
      reflexivity.
  - set (n := Z.to_nat (d - 53)).
    assert (Hn : (0 < n <= 11)%nat) by (subst n; lia).
    assert (Hdivn : (2 ^ Z.of_nat n | Zpos p)).
    { apply Z.divide_trans with (2 ^ 11); [| exact Hdiv].
      exists (2 ^ (11 - Z.of_nat n)).
      rewrite <- Z.pow_add_r by lia. f_equal. lia. }
    destruct Hdivn as [k Hk].
    assert (Hpow : 0 < 2 ^ Z.of_nat n) by (apply Z.pow_pos_nonneg; lia).
    assert (Hkpos : 0 < k) by nia.
    destruct k as [| q | q]; try lia.
    assert (Hp : Nat.iter n xO q = p).
    { apply Pos2Z.inj. rewrite Zpos_xO_iter. lia. }
    assert (Hq : Zpos (digits2_pos q) = 53).
    { pose proof (digits2_pos_xO_iter n q) as H. rewrite Hp in H.
      fold d in H. subst n. lia. }
    rewrite <- Hp at 1. rewrite (of_size_t_long q n Hq Hn).
    unfold Double.to_size_t.
    replace (0 <=? Z.of_nat n) with true by (symmetry; apply Z.leb_le; lia).
    rewrite <- Hk.
    replace (Zpos p <? Word64.modulus) with true
      by (symmetry; apply Z.ltb_lt; lia).
    reflexivity.
Qed.

Lemma shl_20_divisible (flag_mb : Z) : (2 ^ 11 | Word64.shl flag_mb 20).
Proof.
  unfold Word64.shl, Word64.wrap, Word64.modulus.
  rewrite Z.shiftl_mul_pow2 by lia.
  apply Z.divide_trans with (2 ^ 20).
  - exists (2 ^ 9). reflexivity.
  - apply Z.mod_divide; [lia |].
    rewrite Z.mod_mod_divide by (exists (2 ^ 44); reflexivity).
    apply Z.mod_mul. lia.
Qed.

Lemma override_round_trip (flag_mb : Z) :
  Double.to_size_t (Double.of_size_t (Word64.shl flag_mb 20))
  = Some (Word64.shl flag_mb 20).
Proof.
  apply size_t_double_round_trip.
  - apply wrap_range.
  - apply shl_20_divisible.
Qed.

(** ** The sizing policy *)

(** C6.  [GpuInitAllocSize] reads [FLAGS_initial_gpu_memory_in_mb] and
    [GpuReallocSize] reads [FLAGS_reallocate_gpu_memory_in_mb]; for both:
    with no memory available the call raises [ResourceExhausted]; with a
    nonzero override the size is the override shifted left by 20 bits in
    [uint64_t], that is the override times [2^20] when it is below [2^44];
    with no override the size is the product, in [double], of the available
    memory and the fraction, with its fractional part dropped; the size is
    returned when it is at most the available memory, and the call raises
    [ResourceExhausted] when it is more. *)
Theorem GpuAllocSize_policy (fraction : spec_float) (initial_mb reallocate_mb : Z)
        (realloc : bool) (available : Z) :
  let flag_mb := if realloc then reallocate_mb else initial_mb in
  let out := if realloc
             then GpuReallocSize fraction initial_mb reallocate_mb available
             else GpuInitAllocSize fraction initial_mb reallocate_mb available in
  (available = 0 -> out = Throw ResourceExhausted)
  /\ (0 < available -> 0 < flag_mb ->
      let bytes := Word64.shl flag_mb 20 in
      (flag_mb < 2 ^ 44 -> bytes = flag_mb * 1048576)
      /\ (bytes <= available -> out = Ok bytes)
      /\ (available < bytes -> out = Throw ResourceExhausted))
  /\ (0 < available -> flag_mb = 0 ->
      forall bytes,
        Double.to_size_t (Double.mul (Double.of_size_t available) fraction)
        = Some bytes ->
        (bytes <= available -> out = Ok bytes)
        /\ (available < bytes -> out = Throw ResourceExhausted)).
Proof.
  cbn zeta.
  assert (Hout : (if realloc
                  then GpuReallocSize fraction initial_mb reallocate_mb available
                  else GpuInitAllocSize fraction initial_mb reallocate_mb available)
                 = GpuAllocSize fraction initial_mb reallocate_mb realloc available)
    by (destruct realloc; reflexivity).
  rewrite Hout. clear Hout. unfold GpuAllocSize.
  set (flag_mb := if realloc then reallocate_mb else initial_mb).
  split; [| split].
  - intros ->. reflexivity.
  - intros Hav Hflag.
    apply Z.ltb_lt in Hav. rewrite Hav. cbn [negb].
    pose proof Hflag as Hflag'. apply Z.ltb_lt in Hflag'. rewrite Hflag'.
    rewrite override_round_trip.
    split; [| split].
    + intros Hsmall. unfold Word64.shl. rewrite Z.shiftl_mul_pow2 by lia.
      rewrite wrap_small; [reflexivity |].
      unfold Word64.modulus.
      change (2 ^ 64) with (2 ^ 44 * 2 ^ 20). change (2 ^ 20) with 1048576 in *.
      nia.
    + intros Hle. apply Z.leb_le in Hle. rewrite Hle. reflexivity.
    + intros Hgt. apply Z.leb_gt in Hgt. rewrite Hgt. reflexivity.
  - intros Hav Hflag bytes Hbytes.
    apply Z.ltb_lt in Hav. rewrite Hav. cbn [negb].
    rewrite Hflag. cbn [Z.ltb Z.compare]. rewrite Hbytes.
    split.
    + intros Hle. apply Z.leb_le in Hle. rewrite Hle. reflexivity.
    + intros Hgt. apply Z.leb_gt in Hgt. rewrite Hgt. reflexivity.
Qed.

Lemma GpuAllocSize_policy_witness :
  GpuInitAllocSize fraction_0_92 0 500 1000 = Ok 920
  /\ GpuReallocSize fraction_0_92 0 500 1073741824 = Ok 524288000
  /\ GpuReallocSize fraction_0_92 0 500 104857600 = Throw ResourceExhausted.
Proof.
  split; [| split].
  - apply (proj2 (proj2 (GpuAllocSize_policy fraction_0_92 0 500 false 1000)));
      [lia | reflexivity | vm_compute; reflexivity | lia].
  - apply (proj1 (proj2 (proj1 (proj2 (GpuAllocSize_policy
                                         fraction_0_92 0 500 true 1073741824))
                                      ltac:(lia) ltac:(cbn; lia)))).
    vm_compute. discriminate.
  - apply (proj2 (proj2 (proj1 (proj2 (GpuAllocSize_policy
                                         fraction_0_92 0 500 true 104857600))
                                      ltac:(lia) ltac:(cbn; lia)))).
    vm_compute. reflexivity.
Defined.

(** C6 as stated fails for an override of [2^44] MB or more: the shift
    drops the high bits.  An override of [2^44] MB, which is [2^64] bytes,
    gives the size 0 with 1000 bytes available, and an override of
    [2^44 + 1] MB gives 1 MB with [10^7] bytes available: the call returns
    a size that is not the override in bytes, and does not raise
    [ResourceExhausted] although the override in bytes is above the
    available memory. *)
Lemma GpuAllocSize_override_wraps :
  let big := 17592186044416 in
  0 < big
  /\ 1000 < big * 1048576
  /\ GpuInitAllocSize fraction_0_92 big 0 1000 = Ok 0
  /\ GpuReallocSize fraction_0_92 0 big 1000 = Ok 0
  /\ 10000000 < (big + 1) * 1048576
  /\ GpuInitAllocSize fraction_0_92 (big + 1) 0 10000000 = Ok 1048576
  /\ GpuReallocSize fraction_0_92 0 (big + 1) 10000000 = Ok 1048576.
Proof.
  cbn zeta. repeat split; try lia; vm_compute; reflexivity.
Qed.

(** A fraction above one asks for more than is available. *)
Example GpuAllocSize_fraction_two :
  GpuInitAllocSize (S754_finite false 4503599627370496 (-51)) 0 0 1000
  = Throw ResourceExhausted.
Proof. vm_compute. reflexivity. Qed.

(** * Further properties *)

(** ** [RaiseNonOutOfMemoryError] *)

(** X1.  [RaiseNonOutOfMemoryError] returns only when the status and the
    pending error flag are both success or out of memory; it then writes
    [gpuSuccess] back and leaves the flag reset.  A fatal status is raised
    before the flag is read, with the state untouched; otherwise a fatal
    flag is raised, and the flag is reset by the read. *)
Theorem RaiseNonOutOfMemoryError_outcome (status : gpuError_t) (s : St) :
  let out := RaiseNonOutOfMemoryError status s in
  let flag := last_error (env s) in
  (benign status = true -> benign flag = true ->
   fst out = Ok gpuSuccess
   /\ this (snd out) = this s
   /\ last_error (env (snd out)) = gpuSuccess)
  /\ (benign status = false ->
      fst out = Throw (External status) /\ snd out = s)
  /\ (benign status = true -> benign flag = false ->
      fst out = Throw (External flag)
      /\ this (snd out) = this s
      /\ last_error (env (snd out)) = gpuSuccess).
Proof.
  destruct s as [h v]. cbn zeta. cbn [env this].
  unfold RaiseNonOutOfMemoryError. unfold_monad.
  split; [| split].
  - intros Hs Hf.
    destruct status; try discriminate; cbn;
      destruct (last_error v); try discriminate; cbn; auto.
  - intros Hs. destruct status; try discriminate; cbn; auto.
  - intros Hs Hf.
    destruct status; try discriminate; cbn;
      destruct (last_error v); try discriminate; cbn; auto.
Qed.

Lemma RaiseNonOutOfMemoryError_outcome_witness :
  fst (RaiseNonOutOfMemoryError gpuErrorOutOfMemory
         (mkSt (mkHelper 0 0 0 false []) (mkEnv gpuErrorOutOfMemory 0 1 [] ∅)))
  = Ok gpuSuccess
  /\ fst (RaiseNonOutOfMemoryError gpuSuccess
            (mkSt (mkHelper 0 0 0 false []) (mkEnv (gpuErrorOther 700) 0 1 [] ∅)))
     = Throw (External (gpuErrorOther 700)).
Proof.
  split.
  - apply (proj1 (RaiseNonOutOfMemoryError_outcome gpuErrorOutOfMemory
                    (mkSt (mkHelper 0 0 0 false [])
                          (mkEnv gpuErrorOutOfMemory 0 1 [] ∅))));
      reflexivity.
  - apply (proj2 (proj2 (RaiseNonOutOfMemoryError_outcome gpuSuccess
                           (mkSt (mkHelper 0 0 0 false [])
                                 (mkEnv (gpuErrorOther 700) 0 1 [] ∅)))));
      reflexivity.
Defined.

(** ** What the returned status of [Malloc] tells the caller *)

Lemma Malloc_cases testing s size managed answer :
  let out := Malloc testing size managed answer s in
  (over_limit (this s) size = true /\ out = (Ok (gpuErrorOutOfMemory, None), s))
  \/ (over_limit (this s) size = false /\ fst answer = gpuSuccess
      /\ fst out = Ok (gpuSuccess, Some (snd answer)))
  \/ (over_limit (this s) size = false /\ fst answer = gpuErrorOutOfMemory
      /\ fst out = Ok (gpuErrorOutOfMemory, None))
  \/ (over_limit (this s) size = false /\ fst out = Throw (External (fst answer))).
Proof.
  cbn zeta. destruct answer as [e p]. cbn [fst snd].
  destruct (over_limit (this s) size) eqn:Hover.
  - left. split; [reflexivity |]. apply Malloc_rejected. exact Hover.
  - right. destruct e.
    + left. split; [reflexivity |]. split; [reflexivity |].
      apply (Malloc_native_success testing s size managed p Hover).
    + right. left. split; [reflexivity |]. split; [reflexivity |].
      apply (Malloc_native_out_of_memory testing s size managed p Hover).
    + right. right. split; [reflexivity |].
      apply Malloc_native_fatal; [exact Hover | discriminate | discriminate].
    + right. right. split; [reflexivity |].
      apply Malloc_native_fatal; [exact Hover | discriminate | discriminate].
Qed.

Lemma Malloc_success_facts (testing : bool) (s : St) (size : Z) (managed : bool)
        (answer : gpuError_t * Z) (ptr : option Z) (s' : St) :
  Malloc testing size managed answer s = (Ok (gpuSuccess, ptr), s') ->
  fst answer = gpuSuccess
  /\ ptr = Some (snd answer)
  /\ cur_size_ (this s') = Word64.add (cur_size_ (this s)) size
  /\ last_error (env s') = last_error (env s)
  /\ (limit_size_ (this s) <> 0 -> cur_size_ (this s') <= limit_size_ (this s)).
Proof.
  intros HM.
  destruct (Malloc_cases testing s size managed answer)
    as [(_ & H) | [(Hover & Ha & H) | [(_ & _ & H) | (_ & H)]]];
    cbn zeta in H; rewrite HM in H; cbn in H; try discriminate.
  destruct answer as [e p]. cbn in Ha. subst e.
  pose proof (Malloc_native_success testing s size managed p Hover)
    as (_ & H2 & _ & _ & H5 & _).
  rewrite HM in H2, H5. cbn in H2, H5. cbn [fst snd].
  inversion H; subst ptr.
  repeat split; auto.
  intros Hl. rewrite H2. apply over_limit_false_bound; assumption.
Qed.

(** X2.  When [Malloc] returns [gpuSuccess], the native allocation
    reported success, the address is the one it stored, the counter has
    grown by [size] (in [uint64_t]), the error flag is as it was before the
    call, and, with recording enabled, the new counter is within the
    limit. *)
Theorem Malloc_success_inv (testing : bool) (s : St) (size : Z) (managed : bool)
        (answer : gpuError_t * Z) (ptr : option Z) (s' : St) :
  Malloc testing size managed answer s = (Ok (gpuSuccess, ptr), s') ->
  fst answer = gpuSuccess
  /\ ptr = Some (snd answer)
  /\ cur_size_ (this s') = Word64.add (cur_size_ (this s)) size
  /\ last_error (env s') = last_error (env s)
  /\ (limit_size_ (this s) <> 0 -> cur_size_ (this s') <= limit_size_ (this s)).
Proof. apply Malloc_success_facts. Qed.

Lemma Malloc_success_inv_witness :
  cur_size_ (this (snd (Malloc true 4096 false (gpuSuccess, 65536)
                          (mkSt (mkHelper 0 1048576 8192 true [])
                                (mkEnv gpuSuccess 0 1 [] ∅)))))
  <= 1048576.
Proof.
  refine (proj2 (proj2 (proj2 (proj2
            (Malloc_success_inv true
               (mkSt (mkHelper 0 1048576 8192 true []) (mkEnv gpuSuccess 0 1 [] ∅))
               4096 false (gpuSuccess, 65536) (Some 65536) _ _)))) _).
  - vm_compute. reflexivity.
  - cbn. discriminate.
Defined.

(** X3.  When [Malloc] returns [gpuErrorOutOfMemory], whether the limit test
    or the native allocation refused, no address is returned and the helper
    and the [Reserved] statistic are as before the call. *)
Theorem Malloc_out_of_memory_inv (testing : bool) (s : St) (size : Z)
        (managed : bool) (answer : gpuError_t * Z) (ptr : option Z) (s' : St) :
  Malloc testing size managed answer s = (Ok (gpuErrorOutOfMemory, ptr), s') ->
  ptr = None
  /\ this s' = this s
  /\ reserved (env s') = reserved (env s).
Proof.
  intros HM.
  destruct (Malloc_cases testing s size managed answer)
    as [(_ & H) | [(_ & _ & H) | [(Hover & Ha & H) | (_ & H)]]];
    cbn zeta in H; rewrite HM in H; cbn in H; try discriminate.
  - inversion H; subst. auto.
  - destruct answer as [e p]. cbn in Ha. subst e.
    pose proof (Malloc_native_out_of_memory testing s size managed p Hover)
      as (_ & H2 & _ & _ & H5).
    rewrite HM in H2, H5. cbn in H2, H5.
    inversion H; subst. auto.
Qed.

Lemma Malloc_out_of_memory_inv_witness :
  this (snd (Malloc true 4096 false (gpuErrorOutOfMemory, 0)
               (mkSt (mkHelper 0 1048576 8192 true [65536])
                     (mkEnv gpuSuccess 0 1 [] ∅))))
  = mkHelper 0 1048576 8192 true [65536].
Proof.
  refine (proj1 (proj2 (Malloc_out_of_memory_inv true
            (mkSt (mkHelper 0 1048576 8192 true [65536]) (mkEnv gpuSuccess 0 1 [] ∅))
            4096 false (gpuErrorOutOfMemory, 0) None _ _))).
  vm_compute. reflexivity.
Defined.

(** ** Round trips of the counter and of the address index *)

Lemma sub_add_cancel (c x : Z) :
  0 <= c < Word64.modulus -> Word64.sub (Word64.add c x) x = c.
Proof.
  intros Hc. unfold Word64.sub, Word64.add, Word64.wrap.
  rewrite Zminus_mod_idemp_l.
  replace (c + x - x) with c by lia. apply Z.mod_small. exact Hc.
Qed.

Lemma add_sub_cancel (c x : Z) :
  0 <= c < Word64.modulus -> Word64.add (Word64.sub c x) x = c.
Proof.
  intros Hc. unfold Word64.sub, Word64.add, Word64.wrap.
  rewrite Zplus_mod_idemp_l.
  replace (c - x + x) with c by lia. apply Z.mod_small. exact Hc.
Qed.

Lemma erase_insert_fresh x s :
  PtrSet.sorted s -> ~ In x s -> PtrSet.erase x (PtrSet.insert x s) = s.
Proof.
  induction s as [| z s IH]; cbn.
  - intros _ _. rewrite Z.eqb_refl. reflexivity.
  - intros [Hz Hs] Hnot.
    destruct (x <? z) eqn:E1.
    + cbn. rewrite Z.eqb_refl. reflexivity.
    + destruct (x =? z) eqn:E2.
      * apply Z.eqb_eq in E2. exfalso. apply Hnot. left. auto.
      * cbn. rewrite E2. f_equal. apply IH; [exact Hs | tauto].
Qed.

Lemma erase_In x y s :
  PtrSet.sorted s -> (In y (PtrSet.erase x s) <-> y <> x /\ In y s).
Proof.
  induction s as [| z s IH]; cbn.
  - tauto.
  - intros [Hz Hs]. rewrite List.Forall_forall in Hz.
    destruct (x =? z) eqn:E.
    + apply Z.eqb_eq in E. subst z. split.
      * intros Hy. specialize (Hz y Hy). split; [lia | tauto].
      * intros [Hne [Heq | Hy]]; [congruence | exact Hy].
    + apply Z.eqb_neq in E. cbn. rewrite (IH Hs). split.
      * intros [Heq | [Hne Hy]]; [subst; split; [congruence | tauto] | tauto].
      * intros [Hne [Heq | Hy]]; tauto.
Qed.

(** X4.  A successful [Malloc] followed by the [Free] of the returned
    address with the same size puts the counter back to its value, also
    when the sum wrapped; in a testing build it puts the address index
    back as well, provided the address was not recorded before. *)
Theorem Malloc_Free_round_trip (testing : bool) (s : St) (size : Z)
        (managed : bool) (p : Z) (s1 : St) :
  0 <= cur_size_ (this s) < Word64.modulus ->
  Malloc testing size managed (gpuSuccess, p) s = (Ok (gpuSuccess, Some p), s1) ->
  let out := Free testing p size gpuSuccess s1 in
  fst out = Ok tt
  /\ cur_size_ (this (snd out)) = cur_size_ (this s)
  /\ (PtrSet.sorted (gpu_ptrs (this s)) -> ~ In p (gpu_ptrs (this s)) ->
      this (snd out) = this s).
Proof.
  intros Hc HM. cbn zeta.
  destruct (Malloc_success_facts testing s size managed (gpuSuccess, p) _ s1 HM)
    as (_ & _ & Hcur & _).
  assert (Hover : over_limit (this s) size = false).
  { destruct (over_limit (this s) size) eqn:E; [| reflexivity].
    rewrite (Malloc_rejected testing s size managed (gpuSuccess, p) E) in HM.
    discriminate. }
  pose proof (Malloc_native_success testing s size managed p Hover)
    as (_ & _ & Hptrs & (Hd & Hl & Hm) & _).
  rewrite HM in Hptrs, Hd, Hl, Hm. cbn in Hptrs, Hd, Hl, Hm.
  pose proof (Free_native_success testing s1 p size)
    as (F1 & F2 & F3 & (Fd & Fl & Fm) & _).
  split; [exact F1 |].
  assert (Hback : cur_size_ (this (snd (Free testing p size gpuSuccess s1)))
                  = cur_size_ (this s))
    by (rewrite F2, Hcur; apply sub_add_cancel; exact Hc).
  split; [exact Hback |].
  intros Hs Hnot.
  assert (Hidx : gpu_ptrs (this (snd (Free testing p size gpuSuccess s1)))
                 = gpu_ptrs (this s)).
  { rewrite F3, Hptrs. destruct testing; [| reflexivity].
    apply erase_insert_fresh; assumption. }
  destruct (this (snd (Free testing p size gpuSuccess s1))) as [d l c m g].
  destruct (this s) as [d0 l0 c0 m0 g0]. cbn in *. congruence.
Qed.

Lemma Malloc_Free_round_trip_witness :
  this (snd (Free true 65536 18446744073709551615 gpuSuccess
               (snd (Malloc true 18446744073709551615 false (gpuSuccess, 65536)
                       (mkSt (mkHelper 0 0 8192 false [4096])
                             (mkEnv gpuSuccess 0 1 [] ∅))))))
  = mkHelper 0 0 8192 false [4096].
Proof.
  refine (proj2 (proj2 (Malloc_Free_round_trip true
            (mkSt (mkHelper 0 0 8192 false [4096]) (mkEnv gpuSuccess 0 1 [] ∅))
            18446744073709551615 false 65536 _ _ _)) _ _).
  - cbn. rewrite modulus_eq. lia.
  - vm_compute. reflexivity.
  - cbn. repeat constructor.
  - cbn. intros [H | []]. discriminate.
Defined.

(** ** [MemCreate] and [MemRelease] *)

(** X5.  [MemCreate] and [MemRelease] return the status of the driver call
    as it is and never raise.  They change the counter only when the driver
    reports [CUDA_SUCCESS]; the limit, the address index, the runtime's
    error flag and the [Reserved] statistic are never touched; and a
    successful [MemRelease] after a successful [MemCreate] of the same size
    puts the counter back. *)
Theorem MemCreate_MemRelease_accounting (s : St) (handle size : Z)
        (answer : CUresult) :
  let created := MemCreate size answer s in
  let released := MemRelease handle size answer s in
  fst created = Ok answer /\ fst released = Ok answer
  /\ cur_size_ (this (snd created))
     = (match answer with
        | CUDA_SUCCESS => Word64.add (cur_size_ (this s)) size
        | _ => cur_size_ (this s)
        end)
  /\ cur_size_ (this (snd released))
     = (match answer with
        | CUDA_SUCCESS => Word64.sub (cur_size_ (this s)) size
        | _ => cur_size_ (this s)
        end)
  /\ same_identity (this s) (this (snd created))
  /\ same_identity (this s) (this (snd released))
  /\ gpu_ptrs (this (snd created)) = gpu_ptrs (this s)
  /\ gpu_ptrs (this (snd released)) = gpu_ptrs (this s)
  /\ last_error (env (snd created)) = last_error (env s)
  /\ last_error (env (snd released)) = last_error (env s)
  /\ reserved (env (snd created)) = reserved (env s)
  /\ reserved (env (snd released)) = reserved (env s)
  /\ (0 <= cur_size_ (this s) < Word64.modulus ->
      cur_size_ (this (snd (MemRelease handle size CUDA_SUCCESS
                              (snd (MemCreate size CUDA_SUCCESS s)))))
      = cur_size_ (this s)).
Proof.
  destruct s as [h v]. cbn zeta.
  unfold MemCreate, MemRelease, same_identity. unfold_monad.
  destruct answer; cbn; repeat split; auto.
  all: intros Hc; apply sub_add_cancel; exact Hc.
Qed.

Lemma MemCreate_MemRelease_accounting_witness :
  cur_size_ (this (snd (MemRelease 7 2097152 CUDA_SUCCESS
                          (snd (MemCreate 2097152 CUDA_SUCCESS
                                  (mkSt (mkHelper 0 1048576 4096 true [])
                                        (mkEnv gpuSuccess 0 1 [] ∅)))))))
  = 4096.
Proof.
  apply (MemCreate_MemRelease_accounting
           (mkSt (mkHelper 0 1048576 4096 true []) (mkEnv gpuSuccess 0 1 [] ∅))
           7 2097152 CUDA_SUCCESS).
  cbn. rewrite modulus_eq. lia.
Defined.

(** ** [GetMemInfo]: when it raises and what it bounds *)

Lemma query_passes_dec status s :
  query_passes status s
  \/ (benign status = false)
  \/ (status = gpuSuccess /\ benign (last_error (env s)) = false).
Proof.
  unfold query_passes.
  destruct status; cbn; auto.
  destruct (last_error (env s)); cbn; auto.
Qed.

Lemma GetMemInfo_raises s status a t :
  (benign status = false ->
   fst (GetMemInfo (status, (a, t)) s) = Throw (External status))
  /\ (status = gpuSuccess -> benign (last_error (env s)) = false ->
      fst (GetMemInfo (status, (a, t)) s) = Throw (External (last_error (env s)))
      /\ this (snd (GetMemInfo (status, (a, t)) s)) = this s
      /\ last_error (env (snd (GetMemInfo (status, (a, t)) s))) = gpuSuccess).
Proof.
  destruct s as [h v].
  unfold GetMemInfo, RaiseNonOutOfMemoryError, CUDADeviceGuard. unfold_monad. cbn.
  split.
  - intros Hs. destruct status; try discriminate;
      destruct (current_device v =? dev_id_ h); cbn; reflexivity.
  - intros -> Hf.
    destruct (current_device v =? dev_id_ h); cbn;
      destruct (last_error v); try discriminate; cbn; auto.
Qed.

Lemma GetMemInfo_ok_inv (s : St) (status : gpuError_t) (a t : Z)
      (flag : bool) (info : MemInfo) (s' : St) :
  GetMemInfo (status, (a, t)) s = (Ok (flag, info), s') ->
  actual_avail info = actual_avail_after status a
  /\ actual_total info = t
  /\ avail info <= actual_avail info
  /\ total info <= actual_total info
  /\ (limit_size_ (this s) <> 0 ->
      total info <= limit_size_ (this s)
      /\ flag = (limit_size_ (this s) <? actual_total info))
  /\ (limit_size_ (this s) = 0 -> flag = false)
  /\ this s' = this s
  /\ last_error (env s') = gpuSuccess.
Proof.
  intros HG.
  destruct (query_passes_dec status s) as [Hq | [Hb | [Hs Hb]]].
  - pose proof (GetMemInfo_returns s status a t Hq) as (H1 & H2 & H3 & _).
    cbn zeta in H1. rewrite HG in H1, H2, H3. cbn in H1, H2, H3.
    unfold NeedRecord in H1.
    destruct (limit_size_ (this s) =? 0) eqn:El; cbn in H1;
      inversion H1; subst flag info; cbn.
    + apply Z.eqb_eq in El. repeat split; auto; lia.
    + apply Z.eqb_neq in El.
      repeat split; auto; lia.
  - pose proof (proj1 (GetMemInfo_raises s status a t) Hb) as H.
    rewrite HG in H. discriminate.
  - pose proof (proj2 (GetMemInfo_raises s status a t) Hs Hb) as (H & _).
    rewrite HG in H. discriminate.
Qed.

(** X6.  Whatever [GetMemInfo] reports, it reports at most the actual
    values: [avail <= actual_avail] and [total <= actual_total]; with
    recording enabled [total] is at most the limit and the returned flag
    says exactly that the limit is below the actual total; with recording
    disabled the flag is [false].  The helper is not changed and the error
    flag is left reset. *)
Theorem GetMemInfo_bounds (s : St) (answer : gpuError_t * (Z * Z))
        (flag : bool) (info : MemInfo) (s' : St) :
  GetMemInfo answer s = (Ok (flag, info), s') ->
  avail info <= actual_avail info
  /\ total info <= actual_total info
  /\ (limit_size_ (this s) <> 0 ->
      total info <= limit_size_ (this s)
      /\ flag = (limit_size_ (this s) <? actual_total info))
  /\ (limit_size_ (this s) = 0 -> flag = false)
  /\ this s' = this s
  /\ last_error (env s') = gpuSuccess.
Proof.
  intros HG. destruct answer as [status [a t]].
  apply (GetMemInfo_ok_inv s status a t flag info s' HG).
Qed.

Lemma GetMemInfo_bounds_witness :
  exists flag info s',
    GetMemInfo (gpuSuccess, (8589934592, 17179869184))
               (mkSt (mkHelper 0 104857600 62914560 true [])
                     (mkEnv gpuSuccess 0 1 [] ∅))
    = (Ok (flag, info), s')
    /\ total info <= 104857600
    /\ flag = true.
Proof.
  eexists. eexists. eexists.
  split; [vm_compute; reflexivity |].
  refine (proj1 (proj2 (proj2 (GetMemInfo_bounds
            (mkSt (mkHelper 0 104857600 62914560 true []) (mkEnv gpuSuccess 0 1 [] ∅))
            (gpuSuccess, (8589934592, 17179869184)) _ _ _ _))) _).
  - vm_compute. reflexivity.
  - cbn. discriminate.
Defined.

(** X7.  A stale fatal error in the runtime's flag makes [GetMemInfo] raise
    it even though the native query succeeded; reading the flag resets it,
    so the same call made again returns. *)
Theorem GetMemInfo_stale_flag (s : St) (a t : Z) :
  benign (last_error (env s)) = false ->
  let out := GetMemInfo (gpuSuccess, (a, t)) s in
  fst out = Throw (External (last_error (env s)))
  /\ this (snd out) = this s
  /\ exists r, fst (GetMemInfo (gpuSuccess, (a, t)) (snd out)) = Ok r.
Proof.
  intros Hb. cbn zeta.
  destruct (proj2 (GetMemInfo_raises s gpuSuccess a t) eq_refl Hb)
    as (H1 & H2 & H3).
  split; [exact H1 |]. split; [exact H2 |].
  pose proof (GetMemInfo_returns (snd (GetMemInfo (gpuSuccess, (a, t)) s))
                gpuSuccess a t) as H.
  destruct H as (H & _).
  - left. split; [reflexivity |]. left. exact H3.
  - eexists. exact H.
Qed.

Lemma GetMemInfo_stale_flag_witness :
  fst (GetMemInfo (gpuSuccess, (8589934592, 17179869184))
         (mkSt (mkHelper 0 0 0 false []) (mkEnv (gpuErrorOther 700) 0 1 [] ∅)))
  = Throw (External (gpuErrorOther 700)).
Proof.
  apply (GetMemInfo_stale_flag
           (mkSt (mkHelper 0 0 0 false []) (mkEnv (gpuErrorOther 700) 0 1 [] ∅))).
  reflexivity.
Defined.

(** ** The address index after [Free], and [GetBasePtr] as a function *)

Lemma base_of_none ptr s :
  (forall q, In q s -> ptr < q) -> base_of ptr s = nullptr.
Proof.
  intros Hall. unfold base_of, PtrSet.begin.
  destruct s as [| z s]; cbn; [reflexivity |].
  pose proof (Hall z (or_introl eq_refl)) as Hz.
  apply Z.ltb_lt in Hz. rewrite Hz. reflexivity.
Qed.

(** X8.  In a testing build, on every helper reached by a sequence of
    calls, a [Free] that returns (the native free succeeded or the driver
    was unloading) leaves its address out of the index, and [GetBasePtr] on
    that address, when it is not null, then answers another address. *)
Theorem Free_forgets_address (dev_id limit : Z) (v : Env) (cs : list call)
        (r : Run) (ptr size : Z) (answer : gpuError_t) (s' : St) :
  run true cs (Run_start dev_id limit v) = Some r ->
  Free true ptr size answer (state r) = (Ok tt, s') ->
  ~ In ptr (gpu_ptrs (this s'))
  /\ (ptr <> nullptr -> fst (GetBasePtr true ptr s') <> Ok ptr).
Proof.
  intros Hrun HF.
  assert (Hs : PtrSet.sorted (gpu_ptrs (this (state r)))).
  { apply (run_keeps_sorted true cs (Run_start dev_id limit v) r); [exact I | exact Hrun]. }
  pose proof (Free_keeps_sorted true ptr size answer (state r) Hs) as Hs'.
  rewrite HF in Hs'. cbn in Hs'.
  assert (Hidx : gpu_ptrs (this s') = PtrSet.erase ptr (gpu_ptrs (this (state r)))).
  { destruct answer.
    - pose proof (Free_native_success true (state r) ptr size) as (_ & _ & H & _).
      rewrite HF in H. exact H.
    - rewrite (surjective_pairing (Free true ptr size gpuErrorOutOfMemory (state r)))
        in HF.
      rewrite Free_native_fatal in HF by discriminate. discriminate.
    - pose proof (Free_native_unloading true (state r) ptr size) as (_ & _ & H & _).
      rewrite HF in H. exact H.
    - rewrite (surjective_pairing (Free true ptr size (gpuErrorOther code) (state r)))
        in HF.
      rewrite Free_native_fatal in HF by discriminate. discriminate. }
  assert (Hnot : ~ In ptr (gpu_ptrs (this s'))).
  { rewrite Hidx. intros Hin. apply erase_In in Hin; [| exact Hs]. tauto. }
  split; [exact Hnot |].
  intros Hnn. rewrite GetBasePtr_testing. cbn [fst]. intros Heq.
  injection Heq as Heq.
  destruct (base_of_spec ptr _ Hs') as [(Hin & _) | (Hnull & _)].
  - rewrite Heq in Hin. contradiction.
  - congruence.
Qed.

Lemma Free_forgets_address_witness :
  exists r s',
    run true [CallMalloc 4096 false (gpuSuccess, 65536);
              CallMalloc 4096 false (gpuSuccess, 131072)]
        (Run_start 0 0 (mkEnv gpuSuccess 0 1 [] ∅)) = Some r
    /\ Free true 131072 4096 gpuErrorUnloading (state r) = (Ok tt, s')
    /\ fst (GetBasePtr true 131072 s') <> Ok 131072.
Proof.
  eexists. eexists.
  split; [vm_compute; reflexivity |].
  split; [vm_compute; reflexivity |].
  refine (proj2 (Free_forgets_address 0 0 (mkEnv gpuSuccess 0 1 [] ∅)
                   [CallMalloc 4096 false (gpuSuccess, 65536);
                    CallMalloc 4096 false (gpuSuccess, 131072)]
                   _ 131072 4096 gpuErrorUnloading _ _ _) _).
  - vm_compute. reflexivity.
  - vm_compute. reflexivity.
  - discriminate.
Defined.

(** X9.  [GetBasePtr] on addresses (values that are not negative), on every
    helper of a testing build reached by a sequence of calls: the answer is
    at most the address, asking again with the answer gives the answer, and
    a larger address never gets a smaller answer. *)
Theorem GetBasePtr_closure (dev_id limit : Z) (v : Env) (cs : list call)
        (r : Run) (p q : Z) :
  run true cs (Run_start dev_id limit v) = Some r ->
  0 <= p <= q ->
  exists bp bq,
    fst (GetBasePtr true p (state r)) = Ok bp
    /\ fst (GetBasePtr true q (state r)) = Ok bq
    /\ bp <= p
    /\ fst (GetBasePtr true bp (state r)) = Ok bp
    /\ bp <= bq.
Proof.
  intros Hrun Hpq.
  assert (Hs : PtrSet.sorted (gpu_ptrs (this (state r)))).
  { apply (run_keeps_sorted true cs (Run_start dev_id limit v) r); [exact I | exact Hrun]. }
  rewrite !GetBasePtr_testing. cbn [fst].
  set (s := gpu_ptrs (this (state r))) in *.
  exists (base_of p s), (base_of q s).
  split; [reflexivity |]. split; [reflexivity |].
  destruct (base_of_spec p s Hs) as [(Hin & Hle & Hmax) | (Hnull & Hnone)].
  - split; [exact Hle |]. split.
    + rewrite GetBasePtr_testing. cbn [fst]. fold s.
      rewrite base_of_recorded; auto.
    + destruct (base_of_spec q s Hs) as [(_ & _ & Hmaxq) | (_ & Hnoneq)].
      * apply Hmaxq; [exact Hin | lia].
      * specialize (Hnoneq _ Hin). lia.
  - rewrite Hnull. unfold nullptr in *. split; [lia |]. split.
    + rewrite GetBasePtr_testing. cbn [fst]. fold s.
      f_equal. apply base_of_none. intros x Hx. specialize (Hnone x Hx). lia.
    + destruct (base_of_spec q s Hs) as [(Hinq & _ & _) | (Hnullq & _)].
      * specialize (Hnone _ Hinq). lia.
      * rewrite Hnullq. unfold nullptr. lia.
Qed.

Lemma GetBasePtr_closure_witness :
  exists r bp bq,
    run true [CallMalloc 4096 false (gpuSuccess, 65536);
              CallMalloc 4096 false (gpuSuccess, 131072)]
        (Run_start 0 0 (mkEnv gpuSuccess 0 1 [] ∅)) = Some r
    /\ fst (GetBasePtr true 70000 (state r)) = Ok bp
    /\ fst (GetBasePtr true 140000 (state r)) = Ok bq
    /\ bp <= bq.
Proof.
  destruct (run true [CallMalloc 4096 false (gpuSuccess, 65536);
                      CallMalloc 4096 false (gpuSuccess, 131072)]
                (Run_start 0 0 (mkEnv gpuSuccess 0 1 [] ∅))) as [r |] eqn:E;
    [| vm_compute in E; discriminate].
  destruct (GetBasePtr_closure 0 0 (mkEnv gpuSuccess 0 1 [] ∅) _ r 70000 140000 E)
    as (bp & bq & H1 & H2 & _ & _ & H5); [lia |].
  exists r, bp, bq. auto.
Defined.

(** ** Addresses inside outstanding blocks *)

Lemma remove_block_keeps (b x : block) (l : list block) :
  In x l -> x <> b -> In x (remove_block b l).
Proof.
  induction l as [| y l IH]; cbn; [tauto |].
  intros [-> | Hx] Hne.
  - destruct (block_eqb b x) eqn:E.
    + apply block_eqb_eq in E. congruence.
    + left. reflexivity.
  - destruct (block_eqb b y); [exact Hx | right; auto].
Qed.

Lemma disjoint_same_base (p s1 s2 : Z) :
  0 < s1 -> 0 < s2 -> disjoint (p, s1) (p, s2) = false.
Proof.
  intros H1 H2. destruct (disjoint (p, s1) (p, s2)) eqn:E; [| reflexivity].
  apply disjoint_spec in E. cbn in E. lia.
Qed.

Lemma remove_block_base_gone (p s : Z) (l : list block) :
  pairwise_disjoint l ->
  Forall (fun b => 0 < snd b) l ->
  existsb (block_eqb (p, s)) l = true ->
  forall s1, ~ In (p, s1) (remove_block (p, s) l).
Proof.
  induction l as [| y l IH]; cbn; [discriminate |].
  intros [Hy Hl] Hpos Hex s1.
  inversion Hpos as [| ? ? Hy0 Hpos']; subst.
  rewrite List.Forall_forall in Hy, Hpos'.
  destruct (block_eqb (p, s) y) eqn:E.
  - apply block_eqb_eq in E. subst y. intros Hin.
    pose proof (Hy _ Hin) as Hd. pose proof (Hpos' _ Hin) as Hs1. cbn in *.
    rewrite disjoint_same_base in Hd by assumption. discriminate.
  - cbn in Hex. intros [Heq | Hin].
    + subst y. apply existsb_exists in Hex. destruct Hex as (x & Hx & Hxe).
      apply block_eqb_eq in Hxe. subst x.
      pose proof (Hy _ Hx) as Hd. pose proof (Hpos' _ Hx) as Hs. cbn in *.
      rewrite disjoint_same_base in Hd by assumption. discriminate.
    + revert Hin. apply IH; auto. apply List.Forall_forall. exact Hpos'.
Qed.

Lemma pairwise_disjoint_In (a b : block) (l : list block) :
  pairwise_disjoint l -> In a l -> In b l -> a <> b ->
  disjoint a b = true \/ disjoint b a = true.
Proof.
  induction l as [| y l IH]; cbn; [tauto |].
  intros [Hy Hl] Ha Hb Hne. rewrite List.Forall_forall in Hy.
  destruct Ha as [-> | Ha], Hb as [-> | Hb].
  - congruence.
  - left. apply Hy. exact Hb.
  - right. apply Hy. exact Ha.
  - apply IH; assumption.
Qed.

Lemma indexed_start dev_id limit v : indexed (Run_start dev_id limit v).
Proof.
  split; cbn.
  - exact I.
  - intros q. split; [tauto | intros (size & [])].
  - constructor.
Qed.

Lemma step_indexed limit c r r' :
  accounted limit r -> indexed r ->
  admissible_call c r = true ->
  positive_requests [c] = true ->
  step true c r = Some r' ->
  indexed r'.
Proof.
  intros Hacc [Hs Hb Hp] Hadm Hpos Hstep.
  destruct Hacc as [_ _ _ Hdis _].
  destruct c as [size managed [e p] | ptr size answer]; unfold step in Hstep.
  - destruct (over_limit (this (state r)) size) eqn:Hover.
    + rewrite (Malloc_rejected true (state r) size managed (e, p) Hover) in Hstep.
      injection Hstep as <-. split; assumption.
    + destruct e; cbn in Hadm; try discriminate.
      * pose proof (Malloc_native_success true (state r) size managed p Hover)
          as (H1 & _ & H3 & _).
        destruct (Malloc true size managed (gpuSuccess, p) (state r))
          as [res s'] eqn:E.
        cbn in H1, H3. subst res. injection Hstep as <-.
        cbn in Hpos. rewrite andb_true_r in Hpos. apply Z.ltb_lt in Hpos.
        split; cbn.
        -- rewrite H3. apply insert_sorted. exact Hs.
        -- intros q. rewrite H3, insert_In, Hb. split.
           ++ intros [-> | (sz & Hsz)]; [exists size; left; reflexivity |].
              exists sz. right. exact Hsz.
           ++ intros (sz & [Heq | Hsz]); [left; congruence | right; eauto].
        -- constructor; [exact Hpos | exact Hp].
      * pose proof (Malloc_native_out_of_memory true (state r) size managed p Hover)
          as (H1 & H2 & _).
        destruct (Malloc true size managed (gpuErrorOutOfMemory, p) (state r))
          as [res s'] eqn:E.
        cbn in H1, H2. subst res. injection Hstep as <-.
        split; cbn; rewrite ?H2; assumption.
  - destruct answer; cbn in Hadm; try discriminate.
    pose proof (Free_native_success true (state r) ptr size) as (H1 & _ & H3 & _).
    destruct (Free true ptr size gpuSuccess (state r)) as [res s'] eqn:E.
    cbn in H1, H3. subst res. injection Hstep as <-.
    split; cbn.
    + rewrite H3. apply erase_sorted. exact Hs.
    + intros q. rewrite H3, (erase_In ptr q _ Hs), Hb. split.
      * intros (Hne & sz & Hsz). exists sz.
        apply remove_block_keeps; [exact Hsz | congruence].
      * intros (sz & Hsz). split.
        -- intros ->. revert Hsz.
           apply (remove_block_base_gone ptr size); assumption.
        -- exists sz. apply (remove_block_incl (ptr, size)). exact Hsz.
    + apply remove_block_Forall. exact Hp.
Qed.

Lemma run_indexed limit cs :
  forall r,
    accounted limit r -> indexed r ->
    admissible true cs r = true ->
    positive_requests cs = true ->
    exists r', run true cs r = Some r' /\ accounted limit r' /\ indexed r'.
Proof.
  induction cs as [| c cs IH]; intros r Hacc Hidx Hadm Hpos.
  - exists r. auto.
  - cbn in Hadm. apply andb_true_iff in Hadm. destruct Hadm as [Hc Hrest].
    cbn in Hpos. apply andb_true_iff in Hpos. destruct Hpos as [Hpc Hprest].
    assert (Hstep : exists r1, step true c r = Some r1 /\ accounted limit r1).
    { destruct c.
      - apply step_Malloc_accounted; assumption.
      - apply step_Free_accounted; assumption. }
    destruct Hstep as (r1 & Hr1 & Hacc1).
    assert (Hidx1 : indexed r1).
    { apply (step_indexed limit c r r1); auto.
      cbn. rewrite Hpc. reflexivity. }
    cbn [run]. rewrite Hr1 in *. apply IH; assumption.
Qed.

(** X10.  In a testing build, after an admissible sequence of calls whose
    requests all have a positive size, every address inside an outstanding
    block is mapped by [GetBasePtr] to the base address of that block, and
    the index holds exactly the bases of the outstanding blocks. *)
Theorem GetBasePtr_inside_block (dev_id limit : Z) (v : Env) (cs : list call) :
  0 <= limit ->
  admissible true cs (Run_start dev_id limit v) = true ->
  positive_requests cs = true ->
  exists r,
    run true cs (Run_start dev_id limit v) = Some r
    /\ (forall q, In q (gpu_ptrs (this (state r)))
                  <-> exists size, In (q, size) (outstanding r))
    /\ (forall p size x,
           In (p, size) (outstanding r) ->
           p <= x < p + size ->
           fst (GetBasePtr true x (state r)) = Ok p).
Proof.
  intros Hl Hadm Hpos.
  destruct (run_indexed limit cs (Run_start dev_id limit v))
    as (r & Hr & Hacc & [Hs Hb Hp]); auto.
  - apply accounted_start. exact Hl.
  - apply indexed_start.
  - exists r. split; [exact Hr |]. split; [exact Hb |].
    intros p size x Hin Hx.
    rewrite GetBasePtr_testing. cbn [fst]. f_equal.
    destruct Hacc as [_ _ _ Hdis _].
    assert (Hpin : In p (gpu_ptrs (this (state r)))) by (apply Hb; eauto).
    destruct (base_of_spec x _ Hs) as [(Hbin & Hble & Hmax) | (_ & Hnone)].
    + pose proof (Hmax p Hpin ltac:(lia)) as Hpb.
      apply Hb in Hbin. destruct Hbin as (sb & Hsb).
      set (b := base_of x (gpu_ptrs (this (state r)))) in *.
      destruct (Z.eq_dec b p) as [Heq | Hne]; [exact Heq |].
      rewrite List.Forall_forall in Hp.
      pose proof (Hp _ Hin) as Hsize. pose proof (Hp _ Hsb) as Hsbp. cbn in *.
      destruct (pairwise_disjoint_In (p, size) (b, sb) _ Hdis Hin Hsb)
        as [Hd | Hd]; [congruence | |];
        apply disjoint_spec in Hd; cbn in Hd; lia.
    + specialize (Hnone p Hpin). lia.
Qed.

Lemma GetBasePtr_inside_block_witness :
  exists r,
    run true scenario_A (Run_start 0 104857600 (mkEnv gpuSuccess 0 1 [] ∅)) = Some r
    /\ fst (GetBasePtr true 1000000 (state r)) = Ok 4096.
Proof.
  destruct (GetBasePtr_inside_block 0 104857600 (mkEnv gpuSuccess 0 1 [] ∅) scenario_A)
    as (r & Hr & _ & H); [lia | vm_compute; reflexivity | vm_compute; reflexivity |].
  exists r. split; [exact Hr |].
  apply (H 4096 52428800); [| lia].
  vm_compute in Hr. injection Hr as <-. cbn. left. reflexivity.
Defined.

(** ** The registry: construction, lookups and isolation of devices *)

Lemma Instance_snd limit_mb usage_log dev_id w :
  snd (Instance limit_mb usage_log dev_id w) = call_once_init limit_mb usage_log w.
Proof.
  unfold Instance. unfold_monad.
  destruct (0 <=? dev_id); cbn; [| reflexivity].
  destruct (dev_id <? _); reflexivity.
Qed.

Lemma call_once_init_twice limit_mb usage_log w :
  call_once_init limit_mb usage_log (call_once_init limit_mb usage_log w)
  = call_once_init limit_mb usage_log w.
Proof.
  unfold call_once_init at 1.
  replace (once_flag_ (call_once_init limit_mb usage_log w)) with true;
    [reflexivity |].
  unfold call_once_init. destruct (once_flag_ w) eqn:E; auto.
Qed.

(** X11.  The table of helpers is built by the first [Instance] call only:
    a later call, for any ordinal, leaves the process as the earlier call
    left it and answers as it would have answered in place of the first. *)
Theorem Instance_once (limit_mb : Z) (usage_log : bool) (d d' : Z) (w : World) :
  let w1 := snd (Instance limit_mb usage_log d' w) in
  snd (Instance limit_mb usage_log d w1) = w1
  /\ fst (Instance limit_mb usage_log d w1) = fst (Instance limit_mb usage_log d w).
Proof.
  cbn zeta. rewrite !Instance_snd, call_once_init_twice.
  split; [reflexivity |].
  unfold Instance. unfold_monad. rewrite call_once_init_twice. reflexivity.
Qed.

Lemma emplace_instances_fresh limit_mb usage_log (n : nat) :
  forall (i : Z) (w : World),
    i = Z.of_nat (length (instances_ w)) ->
    forall (j : nat) h,
      instances_ (emplace_instances limit_mb usage_log n i w) !! j = Some h ->
      instances_ w !! j = Some h \/ h = fresh_helper limit_mb (Z.of_nat j).
Proof.
  induction n as [| n IH]; intros i w Hi j h; cbn [emplace_instances].
  - auto.
  - unfold RecordedGpuMallocHelper_new.
    intros Hj. apply IH in Hj.
    + destruct Hj as [Hj | Hj]; [| right; exact Hj].
      cbn [instances_] in Hj.
      destruct (Nat.lt_ge_cases j (length (instances_ w))) as [Hlt | Hge].
      * rewrite lookup_app_l in Hj by exact Hlt. left. exact Hj.
      * rewrite lookup_app_r in Hj by exact Hge.
        destruct (j - length (instances_ w))%nat as [| k] eqn:Ek; cbn in Hj.
        -- injection Hj as <-. right. unfold fresh_helper. f_equal. lia.
        -- try rewrite lookup_nil in Hj. discriminate.
    + cbn. rewrite length_app. cbn. lia.
Qed.

Lemma call_once_init_fresh (limit_mb : Z) (usage_log : bool) (v : Env) :
  let w := call_once_init limit_mb usage_log (World_start v) in
  once_flag_ w = true
  /\ length (instances_ w) = Z.to_nat (device_count v)
  /\ (forall (j : nat) h, instances_ w !! j = Some h ->
                          h = fresh_helper limit_mb (Z.of_nat j))
  /\ calls (wenv w) = calls v
  /\ last_error (wenv w) = last_error v.
Proof.
  cbn zeta.
  destruct (call_once_init_ok limit_mb usage_log (World_start v) (World_start_ok v))
    as (Hok & Honce & Hcalls & Hflag & Hcnt).
  unfold World_ok in Hok. rewrite Honce in Hok. destruct Hok as [Hlen _].
  split; [exact Honce |]. split; [rewrite Hlen, Hcnt; reflexivity |].
  split; [| split; [exact Hcalls | exact Hflag]].
  intros j h Hj. unfold call_once_init in Hj. cbn in Hj.
  apply emplace_instances_fresh in Hj; [| reflexivity].
  destruct Hj as [Hj | Hj]; [| exact Hj].
  cbn in Hj. rewrite lookup_nil in Hj. discriminate.
Qed.

(** X12.  The first [Instance] call of a process, whatever its ordinal,
    builds one helper per device: the helper at position [j] has ordinal
    [j], the limit [FLAGS_gpu_memory_limit_mb << 20], a counter at 0, an
    empty address index and a mutex exactly when the limit is not 0; no
    native call is made and the error flag is not touched. *)
Theorem Instance_builds_table (limit_mb : Z) (usage_log : bool) (v : Env)
        (dev_id : Z) :
  let w := snd (Instance limit_mb usage_log dev_id (World_start v)) in
  once_flag_ w = true
  /\ length (instances_ w) = Z.to_nat (device_count v)
  /\ (forall (j : nat) h, instances_ w !! j = Some h ->
                          h = fresh_helper limit_mb (Z.of_nat j))
  /\ calls (wenv w) = calls v
  /\ last_error (wenv w) = last_error v.
Proof.
  cbn zeta. rewrite Instance_snd. apply call_once_init_fresh.
Qed.

Lemma shl_20_zero_iff (flag_mb : Z) :
  Word64.shl flag_mb 20 = 0 <-> flag_mb mod 2 ^ 44 = 0.
Proof.
  unfold Word64.shl, Word64.wrap, Word64.modulus.
  rewrite Z.shiftl_mul_pow2 by lia.
  change (2 ^ 64) with (2 ^ 44 * 2 ^ 20).
  rewrite Z.mul_mod_distr_r by lia.
  change (2 ^ 20) with 1048576. lia.
Qed.

(** X13.  On a fresh process and for every device ordinal in range,
    [RecordedGpuLimitSize] returns [FLAGS_gpu_memory_limit_mb << 20],
    [RecordedGpuMallocSize] returns 0, and [IsGpuMallocRecorded] returns
    whether the flag is not a multiple of [2^44]: the shift is done in
    [uint64_t], so such a flag gives the limit 0 and recording is off. *)
Theorem fresh_process_queries (limit_mb : Z) (usage_log : bool) (v : Env)
        (dev_id : Z) :
  0 <= dev_id < device_count v ->
  fst (RecordedGpuLimitSize limit_mb usage_log dev_id (World_start v))
  = Ok (Word64.shl limit_mb 20)
  /\ fst (RecordedGpuMallocSize limit_mb usage_log dev_id (World_start v)) = Ok 0
  /\ fst (IsGpuMallocRecorded limit_mb usage_log dev_id (World_start v))
     = Ok (negb (limit_mb mod 2 ^ 44 =? 0)).
Proof.
  intros Hrange.
  destruct (Instance_in_range limit_mb usage_log dev_id (World_start v)
              (World_start_ok v) Hrange) as (HI & h & Hh & _).
  pose proof (call_once_init_fresh limit_mb usage_log v) as (_ & _ & Hfresh & _).
  cbn zeta in Hfresh.
  pose proof (Hfresh _ _ Hh) as ->.
  unfold RecordedGpuLimitSize, RecordedGpuMallocSize, IsGpuMallocRecorded, bind.
  rewrite HI. rewrite !(read_instance_spec _ _ _ _ Hh). cbn.
  repeat split. unfold NeedRecord. cbn. do 2 f_equal.
  destruct (Z.eqb_spec (Word64.shl limit_mb 20) 0) as [E | E];
    destruct (Z.eqb_spec (limit_mb mod 2 ^ 44) 0) as [E' | E']; auto;
    rewrite shl_20_zero_iff in E; contradiction.
Qed.

Lemma fresh_process_queries_witness :
  fst (IsGpuMallocRecorded 17592186044416 false 0
         (World_start (mkEnv gpuSuccess 0 2 [] ∅))) = Ok false
  /\ fst (IsGpuMallocRecorded 100 false 1
            (World_start (mkEnv gpuSuccess 0 2 [] ∅))) = Ok true.
Proof.
  split.
  - apply (fresh_process_queries 17592186044416 false
             (mkEnv gpuSuccess 0 2 [] ∅) 0). cbn. lia.
  - apply (fresh_process_queries 100 false (mkEnv gpuSuccess 0 2 [] ∅) 1).
    cbn. lia.
Defined.

(** X14.  On a fresh process with a limit flag that gives a nonzero limit,
    [RecordedGpuMalloc] refuses, on every device in range, a request larger
    than [FLAGS_gpu_memory_limit_mb << 20]: it returns
    [gpuErrorOutOfMemory] without a native call, and the process is as the
    table construction left it. *)
Theorem fresh_process_limit (testing : bool) (limit_mb : Z) (usage_log : bool)
        (v : Env) (dev_id size : Z) (managed : bool) (answer : gpuError_t * Z) :
  0 <= dev_id < device_count v ->
  Word64.shl limit_mb 20 <> 0 ->
  Word64.shl limit_mb 20 < size < Word64.modulus ->
  let out := RecordedGpuMalloc testing limit_mb usage_log size dev_id managed answer
                               (World_start v) in
  fst out = Ok (gpuErrorOutOfMemory, None)
  /\ snd out = snd (Instance limit_mb usage_log dev_id (World_start v))
  /\ calls (wenv (snd out)) = calls v.
Proof.
  intros Hrange Hlim Hsize. cbn zeta.
  destruct (Instance_in_range limit_mb usage_log dev_id (World_start v)
              (World_start_ok v) Hrange) as (HI & h & Hh & _).
  pose proof (call_once_init_fresh limit_mb usage_log v)
    as (_ & _ & Hfresh & Hcalls & _).
  cbn zeta in Hfresh, Hcalls. rewrite Instance_snd.
  pose proof (Hfresh _ _ Hh) as Hfh.
  unfold RecordedGpuMalloc, bind. rewrite HI.
  unfold at_instance. rewrite Hh.
  assert (Hover : over_limit h size = true).
  { subst h. unfold fresh_helper.
    apply over_limit_true; cbn [limit_size_ cur_size_]; [exact Hlim |].
    pose proof (wrap_range (Z.shiftl limit_mb 20)) as Hw.
    fold (Word64.shl limit_mb 20) in Hw.
    rewrite add_no_carry; lia. }
  rewrite (Malloc_rejected testing (mkSt h _) size managed answer Hover). cbn.
  rewrite list_insert_id by exact Hh.
  split; [reflexivity |]. split; [| exact Hcalls].
  destruct (call_once_init limit_mb usage_log (World_start v)); reflexivity.
Qed.

Lemma fresh_process_limit_witness :
  fst (RecordedGpuMalloc true 100 false 209715200 1 false (gpuSuccess, 4096)
         (World_start (mkEnv gpuSuccess 0 2 [] ∅)))
  = Ok (gpuErrorOutOfMemory, None).
Proof.
  apply (fresh_process_limit true 100 false (mkEnv gpuSuccess 0 2 [] ∅)
           1 209715200 false (gpuSuccess, 4096)).
  - cbn. lia.
  - vm_compute. discriminate.
  - vm_compute. split; reflexivity.
Defined.

Lemma Malloc_keeps_identity testing size managed answer :
  keeps_identity (Malloc testing size managed answer).
Proof.
  intros [h v]. destruct answer as [e p].
  unfold Malloc, RaiseNonOutOfMemoryError, CUDADeviceGuard, same_identity.
  unfold_monad. cbn.
  destruct (NeedRecord h && _); cbn; [auto |].
  destruct (current_device v =? dev_id_ h); destruct managed; destruct e;
    destruct testing; cbn; auto;
    destruct (last_error v); cbn; auto.
Qed.

Lemma Free_keeps_identity testing ptr size answer :
  keeps_identity (Free testing ptr size answer).
Proof.
  intros [h v].
  unfold Free, CUDADeviceGuard, same_identity. unfold_monad. cbn.
  destruct (current_device v =? dev_id_ h); destruct answer;
    destruct testing; cbn; auto.
Qed.

Lemma GetMemInfo_keeps_identity answer : keeps_identity (GetMemInfo answer).
Proof.
  intros [h v]. destruct answer as [e [a t]].
  unfold GetMemInfo, RaiseNonOutOfMemoryError, CUDADeviceGuard, same_identity.
  unfold_monad. cbn.
  destruct (current_device v =? dev_id_ h); destruct e; cbn; auto;
    destruct (last_error v); cbn; auto;
    destruct (NeedRecord h); cbn; auto.
Qed.

Lemma MemCreate_keeps_identity size answer : keeps_identity (MemCreate size answer).
Proof.
  intros [h v]. unfold MemCreate, same_identity. unfold_monad.
  destruct answer; cbn; auto.
Qed.

Lemma MemRelease_keeps_identity handle size answer :
  keeps_identity (MemRelease handle size answer).
Proof.
  intros [h v]. unfold MemRelease, same_identity. unfold_monad.
  destruct answer; cbn; auto.
Qed.

Lemma device_frame_refl dev_id w :
  World_ok w -> once_flag_ w = true -> device_frame dev_id w w.
Proof.
  intros Hok Honce. unfold device_frame, same_identity.
  split; [exact Hok |]. split; [exact Honce |].
  split; [reflexivity |]. split; [reflexivity |].
  split; [reflexivity |]. intros h _ Hh. exists h. auto.
Qed.

Lemma at_instance_frame {A} (m : M St A) (i : nat) (w : World) h :
  keeps_identity m ->
  World_ok w -> once_flag_ w = true ->
  instances_ w !! i = Some h ->
  device_frame (Z.of_nat i) w (snd (at_instance i m w)).
Proof.
  intros Hm Hok Honce Hh.
  unfold World_ok in Hok. rewrite Honce in Hok. destruct Hok as [Hlen Hids].
  destruct (Hm (mkSt h (wenv w))) as [(Hd & Hl & Hx) Hcnt]. cbn in Hd, Hl, Hx, Hcnt.
  unfold at_instance. rewrite Hh.
  destruct (m (mkSt h (wenv w))) as [res s'] eqn:E. cbn in *.
  assert (Hlt : (i < length (instances_ w))%nat)
    by (apply lookup_lt_is_Some; eauto).
  unfold device_frame, World_ok. cbn. rewrite Honce.
  repeat apply conj.
  - rewrite length_insert, Hcnt. exact Hlen.
  - intros j h' Hj.
    destruct (Nat.eq_dec i j) as [<- | Hne].
    + rewrite list_lookup_insert_eq in Hj by exact Hlt.
      injection Hj as <-. rewrite Hd. apply Hids. exact Hh.
    + rewrite list_lookup_insert_ne in Hj by exact Hne. apply Hids. exact Hj.
  - reflexivity.
  - apply length_insert.
  - exact Hcnt.
  - intros j Hne. apply list_lookup_insert_ne. lia.
  - intros h0 _ Hh0. rewrite Nat2Z.id in *.
    rewrite list_lookup_insert_eq by exact Hlt.
    exists (this s'). split; [reflexivity |].
    assert (h0 = h) by congruence. subst h0.
    unfold same_identity. auto.
Qed.

Lemma wrapper_frame {A} (m : M St A) limit_mb usage_log dev_id w :
  keeps_identity m ->
  World_ok w ->
  device_frame dev_id (call_once_init limit_mb usage_log w)
    (snd (bind (Instance limit_mb usage_log dev_id)
               (fun i => at_instance i m) w)).
Proof.
  intros Hm Hok.
  destruct (call_once_init_ok limit_mb usage_log w Hok) as (Hok' & Honce & _ & _ & Hcnt).
  destruct (Z.lt_ge_cases dev_id 0) as [Hneg | Hnn].
  - unfold bind. rewrite Instance_out_of_range by (auto; lia).
    apply device_frame_refl; assumption.
  - destruct (Z.lt_ge_cases dev_id (device_count (wenv w))) as [Hin | Hout].
    + destruct (Instance_in_range limit_mb usage_log dev_id w Hok) as (HI & h & Hh & _);
        [lia |].
      unfold bind. rewrite HI.
      pose proof (at_instance_frame m (Z.to_nat dev_id) _ h Hm Hok' Honce Hh) as H.
      rewrite Z2Nat.id in H by lia. exact H.
    + unfold bind. rewrite Instance_out_of_range by (auto; lia).
      apply device_frame_refl; assumption.
Qed.

(** X15.  The calls [RecordedGpuMalloc], [RecordedGpuFree],
    [RecordedGpuMemCreate], [RecordedGpuMemRelease] and
    [RecordedGpuMemGetInfo] on one device, whatever they return or raise,
    leave the table initialised and well formed with the same number of
    helpers, do not change the helper of any other device, and keep the
    ordinal, the limit and the mutex of the helper of their device. *)
Theorem registry_isolation (testing : bool) (limit_mb : Z) (usage_log : bool)
        (w : World) (dev_id : Z) :
  World_ok w ->
  let w0 := call_once_init limit_mb usage_log w in
  (forall size managed answer,
      device_frame dev_id w0
        (snd (RecordedGpuMalloc testing limit_mb usage_log size dev_id managed
                                answer w)))
  /\ (forall p size answer,
         device_frame dev_id w0
           (snd (RecordedGpuFree testing limit_mb usage_log p size dev_id answer w)))
  /\ (forall size answer,
         device_frame dev_id w0
           (snd (RecordedGpuMemCreate limit_mb usage_log size dev_id answer w)))
  /\ (forall handle size answer,
         device_frame dev_id w0
           (snd (RecordedGpuMemRelease limit_mb usage_log handle size dev_id
                                       answer w)))
  /\ (forall answer,
         device_frame dev_id w0
           (snd (RecordedGpuMemGetInfo limit_mb usage_log dev_id answer w))).
Proof.
  intros Hok. cbn zeta.
  split; [| split; [| split; [| split]]]; intros.
  - apply wrapper_frame; [apply Malloc_keeps_identity | exact Hok].
  - apply wrapper_frame; [apply Free_keeps_identity | exact Hok].
  - apply wrapper_frame; [apply MemCreate_keeps_identity | exact Hok].
  - apply wrapper_frame; [apply MemRelease_keeps_identity | exact Hok].
  - apply wrapper_frame; [apply GetMemInfo_keeps_identity | exact Hok].
Qed.

Lemma registry_isolation_witness :
  instances_ (snd (RecordedGpuMalloc true 100 false 4096 1 false (gpuSuccess, 65536)
                     (World_start (mkEnv gpuSuccess 0 2 [] ∅)))) !! 0%nat
  = Some (fresh_helper 100 0).
Proof.
  destruct (proj1 (registry_isolation true 100 false
                     (World_start (mkEnv gpuSuccess 0 2 [] ∅)) 1
                     (World_start_ok _)) 4096 false (gpuSuccess, 65536))
    as (_ & _ & _ & _ & H & _).
  rewrite (H 0%nat) by (cbn; lia).
  vm_compute. reflexivity.
Defined.

(** ** The sizing policy: what a returned size satisfies *)

Lemma to_size_t_range (f : spec_float) (t : Z) :
  Double.to_size_t f = Some t -> 0 <= t < Word64.modulus.
Proof.
  unfold Double.to_size_t. rewrite modulus_eq.
  destruct f as [s | s | | s m e]; try discriminate.
  - intros [= <-]. lia.
  - set (x := if 0 <=? e then Zpos m * 2 ^ e else Zpos m / 2 ^ (- e)).
    assert (Hx : 0 <= x).
    { subst x. destruct (0 <=? e) eqn:E.
      - apply Z.leb_le in E.
        assert (0 < 2 ^ e) by (apply Z.pow_pos_nonneg; lia). nia.
      - apply Z.leb_gt in E. apply Z.div_pos; [lia |].
        apply Z.pow_pos_nonneg; lia. }
    destruct s.
    + destruct (x =? 0); [| discriminate]. intros [= <-]. lia.
    + destruct (x <? 18446744073709551616) eqn:E; [| discriminate].
      apply Z.ltb_lt in E. intros [= <-]. lia.
Qed.

Lemma shl_20_multiple (flag_mb : Z) : (2 ^ 20 | Word64.shl flag_mb 20).
Proof.
  unfold Word64.shl, Word64.wrap, Word64.modulus.
  rewrite Z.shiftl_mul_pow2 by lia.
  apply Z.mod_divide; [lia |].
  rewrite Z.mod_mod_divide by (exists (2 ^ 44); reflexivity).
  apply Z.mod_mul. lia.
Qed.

Lemma GpuAllocSize_ok_inv fraction initial_mb reallocate_mb realloc available bytes :
  GpuAllocSize fraction initial_mb reallocate_mb realloc available = Ok bytes ->
  0 < available /\ 0 <= bytes <= available
  /\ (0 < (if realloc then reallocate_mb else initial_mb) ->
      bytes = Word64.shl (if realloc then reallocate_mb else initial_mb) 20).
Proof.
  unfold GpuAllocSize.
  destruct (0 <? available) eqn:Ea; cbn [negb]; [| discriminate].
  apply Z.ltb_lt in Ea.
  set (flag_mb := if realloc then reallocate_mb else initial_mb).
  destruct (0 <? flag_mb) eqn:Ef.
  - rewrite override_round_trip.
    destruct (Word64.shl flag_mb 20 <=? available) eqn:El; cbn [negb];
      [| discriminate].
    apply Z.leb_le in El. intros [= <-].
    pose proof (wrap_range (Z.shiftl flag_mb 20)) as Hw.
    fold (Word64.shl flag_mb 20) in Hw. repeat split; auto; lia.
  - apply Z.ltb_ge in Ef.
    destruct (Double.to_size_t _) as [b |] eqn:Et; [| discriminate].
    apply to_size_t_range in Et.
    destruct (b <=? available) eqn:El; cbn [negb]; [| discriminate].
    apply Z.leb_le in El. intros [= <-]. repeat split; auto; lia.
Qed.

Lemma GpuAllocSize_throw_inv fraction initial_mb reallocate_mb realloc available e :
  GpuAllocSize fraction initial_mb reallocate_mb realloc available = Throw e ->
  e = ResourceExhausted
  \/ (e = UndefinedConversion
      /\ 0 < available /\ (if realloc then reallocate_mb else initial_mb) <= 0).
Proof.
  unfold GpuAllocSize.
  destruct (0 <? available) eqn:Ea; cbn [negb]; [| intros [= <-]; auto].
  apply Z.ltb_lt in Ea.
  set (flag_mb := if realloc then reallocate_mb else initial_mb).
  destruct (0 <? flag_mb) eqn:Ef.
  - rewrite override_round_trip.
    destruct (Word64.shl flag_mb 20 <=? available); cbn [negb];
      [discriminate | intros [= <-]; auto].
  - apply Z.ltb_ge in Ef.
    destruct (Double.to_size_t _) as [b |].
    + destruct (b <=? available); cbn [negb];
        [discriminate | intros [= <-]; auto].
    + intros [= <-]. auto.
Qed.

(** X16.  A size returned by [GpuInitAllocSize] or [GpuReallocSize] is never
    negative and never above the available memory, which is then positive;
    with an override it is a whole number of MiB.  The only error raised
    with an override is [ResourceExhausted]; the conversion of the product
    to [size_t] is the only other way to fail. *)
Theorem GpuAllocSize_result (fraction : spec_float) (initial_mb reallocate_mb : Z)
        (realloc : bool) (available : Z) :
  let flag_mb := if realloc then reallocate_mb else initial_mb in
  let out := if realloc
             then GpuReallocSize fraction initial_mb reallocate_mb available
             else GpuInitAllocSize fraction initial_mb reallocate_mb available in
  (forall bytes, out = Ok bytes ->
                 0 < available /\ 0 <= bytes <= available
                 /\ (0 < flag_mb -> (1048576 | bytes)))
  /\ (forall e, out = Throw e ->
                e = ResourceExhausted
                \/ (e = UndefinedConversion /\ flag_mb <= 0)).
Proof.
  cbn zeta.
  assert (Hout : (if realloc
                  then GpuReallocSize fraction initial_mb reallocate_mb available
                  else GpuInitAllocSize fraction initial_mb reallocate_mb available)
                 = GpuAllocSize fraction initial_mb reallocate_mb realloc available)
    by (destruct realloc; reflexivity).
  rewrite Hout. clear Hout. split.
  - intros bytes H. apply GpuAllocSize_ok_inv in H.
    destruct H as (H1 & H2 & H3). repeat split; try lia.
    intros Hf. rewrite (H3 Hf). apply shl_20_multiple.
  - intros e H. apply GpuAllocSize_throw_inv in H. tauto.
Qed.

Lemma GpuAllocSize_result_witness :
  0 < 1073741824 /\ 0 <= 524288000 <= 1073741824 /\ (1048576 | 524288000).
Proof.
  assert (E : GpuReallocSize fraction_0_92 0 500 1073741824 = Ok 524288000)
    by (vm_compute; reflexivity).
  destruct (proj1 (GpuAllocSize_result fraction_0_92 0 500 true 1073741824)
                  524288000 E) as (H1 & H2 & H3).
  split; [exact H1 |]. split; [exact H2 |]. apply H3. reflexivity.
Defined.

(** X17.  [GpuMaxAllocSize] and [GpuMaxChunkSize] return a size only when
    both [GpuInitAllocSize] and [GpuReallocSize] return one; the size is the
    larger of the two, so it is at least each of them and at most the larger
    of the two amounts of available memory they read.  When either of the
    two raises, the error is raised. *)
Theorem GpuMaxChunkSize_max (fraction : spec_float) (initial_mb reallocate_mb : Z)
        (available_init available_realloc : Z) :
  let chunk := GpuMaxChunkSize fraction initial_mb reallocate_mb
                               available_init available_realloc in
  let init := GpuInitAllocSize fraction initial_mb reallocate_mb available_init in
  let re := GpuReallocSize fraction initial_mb reallocate_mb available_realloc in
  chunk = GpuMaxAllocSize fraction initial_mb reallocate_mb
                          available_init available_realloc
  /\ (forall m, chunk = Ok m ->
                exists a b, init = Ok a /\ re = Ok b /\ m = Z.max a b
                            /\ 0 <= m <= Z.max available_init available_realloc)
  /\ (forall e, init = Throw e -> chunk = Throw e)
  /\ (forall a e, init = Ok a -> re = Throw e -> chunk = Throw e).
Proof.
  cbn zeta. unfold GpuMaxChunkSize, GpuMaxAllocSize.
  split; [reflexivity |]. split; [| split].
  - intros m.
    destruct (GpuInitAllocSize _ _ _ _) as [a | e] eqn:Ei; [| discriminate].
    destruct (GpuReallocSize _ _ _ _) as [b | e] eqn:Er; [| discriminate].
    intros [= <-]. exists a, b.
    apply GpuAllocSize_ok_inv in Ei. apply GpuAllocSize_ok_inv in Er.
    repeat split; auto; lia.
  - intros e ->. reflexivity.
  - intros a e -> ->. reflexivity.
Qed.

Lemma GpuMaxChunkSize_max_witness :
  exists a b,
    GpuInitAllocSize fraction_0_92 0 500 1000 = Ok a
    /\ GpuReallocSize fraction_0_92 0 500 1073741824 = Ok b
    /\ 524288000 = Z.max a b
    /\ 0 <= 524288000 <= Z.max 1000 1073741824.
Proof.
  apply (proj1 (proj2 (GpuMaxChunkSize_max fraction_0_92 0 500 1000 1073741824))).
  vm_compute. reflexivity.
Defined.

(** ** [GpuMemoryUsage] and the native allocation calls of [Malloc] *)

(** X18.  [GpuMemoryUsage] looks up the helper of the ambient device: it
    raises [OutOfRange] when that device is not an ordinal of the table,
    and the two values it reports are at most the values the native query
    left in [*actual_avail] and [*actual_total]. *)
Theorem GpuMemoryUsage_view (limit_mb : Z) (usage_log : bool) (w : World)
        (status : gpuError_t) (a t : Z) :
  World_ok w ->
  let out := GpuMemoryUsage limit_mb usage_log (status, (a, t)) w in
  let dev := current_device (wenv w) in
  (dev < 0 \/ device_count (wenv w) <= dev -> fst out = Throw OutOfRange)
  /\ (forall a' t', fst out = Ok (a', t') ->
                    a' <= actual_avail_after status a /\ t' <= t).
Proof.
  intros Hok. cbn zeta.
  unfold GpuMemoryUsage, RecordedGpuMemGetInfo, GetCurrentDeviceId, bind, get, ret.
  split.
  - intros Hrange. rewrite Instance_out_of_range by assumption. reflexivity.
  - intros a' t'.
    destruct (Z.lt_ge_cases (current_device (wenv w)) 0) as [Hneg | Hnn];
      [rewrite Instance_out_of_range by (auto; lia); discriminate |].
    destruct (Z.lt_ge_cases (current_device (wenv w)) (device_count (wenv w)))
      as [Hin | Hout];
      [| rewrite Instance_out_of_range by (auto; lia); discriminate].
    destruct (Instance_in_range limit_mb usage_log _ w Hok (conj Hnn Hin))
      as (HI & h & Hh & _).
    rewrite HI. unfold at_instance. rewrite Hh.
    destruct (GetMemInfo (status, (a, t)) _) as [res s'] eqn:E.
    destruct res as [[flag info] | e]; cbn; [| discriminate].
    intros [= <- <-].
    apply GetMemInfo_ok_inv in E. destruct E as (E1 & E2 & E3 & E4 & _).
    lia.
Qed.

Lemma GpuMemoryUsage_view_witness :
  fst (GpuMemoryUsage 100 false (gpuSuccess, (8589934592, 17179869184))
         (World_start (mkEnv gpuSuccess 5 2 [] ∅)))
  = Throw OutOfRange.
Proof.
  apply (proj1 (GpuMemoryUsage_view 100 false
                  (World_start (mkEnv gpuSuccess 5 2 [] ∅))
                  gpuSuccess 8589934592 17179869184 (World_start_ok _))).
  right. cbn. lia.
Defined.

(** X19.  [Malloc] calls the native allocator at most once: not at all when
    the limit test refuses the request, and otherwise exactly once, with
    [cudaMallocManaged] when managed memory is asked for and with
    [cudaMalloc] when it is not. *)
Theorem Malloc_native_allocation (testing : bool) (s : St) (size : Z)
        (managed : bool) (answer : gpuError_t * Z) :
  let out := Malloc testing size managed answer s in
  List.filter is_allocation (calls (env (snd out)))
  = (if over_limit (this s) size then []
     else [if managed then cudaMallocManaged size else cudaMalloc size])
    ++ List.filter is_allocation (calls (env s)).
Proof.
  cbn zeta. destruct s as [h v]. destruct answer as [e p].
  unfold over_limit. cbn [this env].
  unfold Malloc, RaiseNonOutOfMemoryError, CUDADeviceGuard. unfold_monad. cbn.
  destruct (NeedRecord h && _); cbn; [reflexivity |].
  destruct (current_device v =? dev_id_ h); destruct managed; destruct e;
    destruct testing; cbn; try reflexivity;
    destruct (last_error v); cbn; reflexivity.
Qed.

(** ** A [Free] larger than the counter *)

(** X20.  [Free] does not compare [size] with the counter: when the native
    free succeeds with a size above the counter, the counter wraps to
    [cur_size_ + 2^64 - size]; with recording enabled and the limit below
    that value, every later request smaller than the excess
    [size - cur_size_] is refused by the limit test, without a native
    call. *)
Theorem Free_underflow (testing : bool) (s : St) (ptr size : Z) :
  0 <= cur_size_ (this s) < size ->
  size < Word64.modulus ->
  let s1 := snd (Free testing ptr size gpuSuccess s) in
  cur_size_ (this s1) = cur_size_ (this s) + Word64.modulus - size
  /\ (limit_size_ (this s) <> 0 ->
      limit_size_ (this s) < cur_size_ (this s1) ->
      forall size' managed answer,
        0 <= size' < size - cur_size_ (this s) ->
        Malloc testing size' managed answer s1
        = (Ok (gpuErrorOutOfMemory, None), s1)).
Proof.
  intros Hc Hs. cbn zeta.
  pose proof (Free_native_success testing s ptr size)
    as (_ & H2 & _ & (_ & Hl & _) & _).
  assert (Hcur : cur_size_ (this (snd (Free testing ptr size gpuSuccess s)))
                 = cur_size_ (this s) + Word64.modulus - size).
  { rewrite H2, sub_borrow by lia. lia. }
  split; [exact Hcur |].
  intros Hlim Hbelow size' managed answer Hsz.
  apply Malloc_rejected. apply over_limit_true.
  - rewrite Hl. exact Hlim.
  - rewrite Hl, add_no_carry by lia. lia.
Qed.

Lemma Free_underflow_witness :
  Malloc true 1 false (gpuSuccess, 8192)
         (snd (Free true 4096 2 gpuSuccess
                 (mkSt (mkHelper 0 1048576 0 true [4096])
                       (mkEnv gpuSuccess 0 1 [] ∅))))
  = (Ok (gpuErrorOutOfMemory, None),
     snd (Free true 4096 2 gpuSuccess
            (mkSt (mkHelper 0 1048576 0 true [4096])
                  (mkEnv gpuSuccess 0 1 [] ∅)))).
Proof.
  apply (proj2 (Free_underflow true
                  (mkSt (mkHelper 0 1048576 0 true [4096])
                        (mkEnv gpuSuccess 0 1 [] ∅))
                  4096 2 ltac:(cbn; lia) ltac:(rewrite modulus_eq; lia))).
  - cbn. discriminate.
  - vm_compute. reflexivity.
  - cbn. lia.
Defined.
